(** * RepaymentCalculator: the amortisation engine, embedded and verified

    A shallow embedding of [borrow/common.py], [borrow/mortgage.py] and
    [borrow/loan.py].

    Conventions of the embedding.
    - The arithmetic of the program is embedded twice.  Modules [Common],
      [Mortgage] and [Loan] take Python's numbers as exact rationals [Q],
      with [Qeq] ([==]) as equality of amounts: they carry the statements
      that rounding does not touch (what raises, which dates are used,
      orders that rounding keeps).  Module [Binary64] takes them as the
      binary64 floats that Python computes with, and runs: statements
      about exact values (equal balances, a balance of exactly zero at a
      threshold, strict order) are settled there, on concrete inputs.
    - A Python value that may be a number or a string ([NumStr]) is the
      tagged type [value].
    - A Python exception is a [Raise] in the [result] type; the exception
      classes that the modelled code can raise are the constructors of [exn].
    - [print] and [__str__] are left out: for the typed records used here
      they never raise once the downpayment has been resolved, and they do
      not contribute to any returned value.
    - [dateutil] ([relativedelta], [rrule]) is an external library; module
      [Dateutil] models the behaviour the program relies on over calendar
      dates (year, month, day).  The time of day is carried unchanged by
      every operation used and is left out, as is the 1..9999 bound that
      Python puts on years.
    - [load_mortgages] is modelled from the mapping that [yaml.safe_load]
      returns, with fields that are numbers or strings (module [Load]);
      reading and parsing the file is not. *)

From Stdlib Require Import ZArith QArith Qabs Lqa Lia List Bool Ascii String.
From Stdlib Require Import PrimFloat.
Import ListNotations.

(** ** Exceptions and fallible results *)

Inductive exn : Type :=
| TypeError
| IndexError
| ValueError
| UnboundLocalError.

Inductive result (A : Type) : Type :=
| Ok (a : A)
| Raise (e : exn).

Arguments Ok {A} a.
Arguments Raise {A} e.

Definition bind {A B : Type} (c : result A) (k : A -> result B) : result B :=
  match c with
  | Ok a => k a
  | Raise e => Raise e
  end.

Notation "x <- c ;; k" := (bind c (fun x => k))
  (at level 61, c at next level, right associativity).
Notation "' pat <- c ;; k" := (bind c (fun x => match x with pat => k end))
  (at level 61, pat pattern, c at next level, right associativity).

(** Comparison of amounts, as booleans so that the code runs. *)

Definition Qgtb (a b : Q) : bool := negb (Qle_bool a b).

(** Python truthiness of a number: non-zero. *)
Definition truthy (a : Q) : bool := negb (Qeq_bool a 0).

(** ** Python strings *)

Module PyStr.

Local Open Scope string_scope.

(** The characters [str.strip] removes (ASCII white space). *)
Definition is_space (c : ascii) : bool :=
  let n := nat_of_ascii c in
  ((9 <=? n) && (n <=? 13) || (28 <=? n) && (n <=? 32))%nat.

Fixpoint lstrip (s : string) : string :=
  match s with
  | EmptyString => EmptyString
  | String c s' => if is_space c then lstrip s' else s
  end.

Fixpoint rev_append (s acc : string) : string :=
  match s with
  | EmptyString => acc
  | String c s' => rev_append s' (String c acc)
  end.

Definition rev (s : string) : string := rev_append s EmptyString.

Definition strip (s : string) : string := rev (lstrip (rev (lstrip s))).

(** [s[-1]] *)
Definition last (s : string) : result ascii :=
  match rev s with
  | EmptyString => Raise IndexError
  | String c _ => Ok c
  end.

(** [s[:-1]] *)
Definition drop_last (s : string) : string :=
  match rev s with
  | EmptyString => EmptyString
  | String _ r => rev r
  end.

(** [s[0]] *)
Definition first (s : string) : result ascii :=
  match s with
  | EmptyString => Raise IndexError
  | String c _ => Ok c
  end.

(** [s[1:]] *)
Definition drop_first (s : string) : string :=
  match s with
  | EmptyString => EmptyString
  | String _ r => r
  end.

Definition digit (c : ascii) : option Z :=
  let n := nat_of_ascii c in
  if ((48 <=? n) && (n <=? 57))%nat then Some (Z.of_nat n - 48)%Z else None.

Fixpoint take_digits (s : string) : list Z * string :=
  match s with
  | EmptyString => ([], EmptyString)
  | String c s' =>
      match digit c with
      | Some d => let (ds, r) := take_digits s' in (d :: ds, r)
      | None => ([], s)
      end
  end.

Definition number (ds : list Z) : Z :=
  fold_left (fun acc d => acc * 10 + d)%Z ds 0%Z.

Definition take_sign (s : string) : Z * string :=
  match s with
  | String "+" r => (1%Z, r)
  | String "-" r => ((-1)%Z, r)
  | _ => (1%Z, s)
  end.

(** The exponent part of a literal: empty, or [e]/[E], an optional sign
    and at least one digit, up to the end of the string. *)
Definition exponent (s : string) : option Z :=
  match s with
  | EmptyString => Some 0%Z
  | String c r =>
      if (Ascii.eqb c "e" || Ascii.eqb c "E")%bool then
        let (sg, r1) := take_sign r in
        match take_digits r1 with
        | ((_ :: _) as ds, EmptyString) => Some (sg * number ds)%Z
        | _ => None
        end
      else None
  end.

(** [float(s)] on decimal literals: white space around, an optional sign,
    digits with an optional fractional part, an optional exponent.  The
    literals [inf], [nan] and digit grouping with underscores have no
    rational value here and are a [ValueError], as every malformed
    literal is. *)
Definition float (s : string) : result Q :=
  let (sg, s1) := take_sign (strip s) in
  let (ip, s2) := take_digits s1 in
  let (fp, s3) :=
    match s2 with
    | String "." r => take_digits r
    | _ => ([], s2)
    end in
  match (ip ++ fp)%list, exponent s3 with
  | _ :: _, Some e =>
      let m := (sg * number (ip ++ fp)%list)%Z in
      let e' := (e - Z.of_nat (List.length fp))%Z in
      if (0 <=? e')%Z then Ok (inject_Z (m * 10 ^ e'))
      else Ok (m # Z.to_pos (10 ^ (- e')))
  | _, _ => Raise ValueError
  end.

End PyStr.

(** ** borrow/common.py *)

Module Common.

Local Open Scope Q_scope.

(** [NumStr]: a number or a string. *)
Inductive value : Type :=
| Num (q : Q)
| Str (s : string).

(** [sanitize_percent].  A string is stripped; then [value[-1]] is
    evaluated whatever the type of [value] is, which for a number is a
    [TypeError] (numbers are not subscriptable) and for an empty string an
    [IndexError]. *)
Definition sanitize_percent (v : value) : result value :=
  match v with
  | Num _ => Raise TypeError
  | Str s =>
      let s := PyStr.strip s in
      c <- PyStr.last s ;;
      if Ascii.eqb c "%" then
        f <- PyStr.float (PyStr.drop_last s) ;;
        Ok (Num (f / 100))
      else Ok (Str s)
  end.

(** [sign_magnitude] *)
Definition sign_magnitude (v : value) : result (Q * value) :=
  match v with
  | Num q =>
      let sign := if Qgtb 0 q then - (1) else 1 in
      Ok (sign, Num (Qabs q))
  | Str s =>
      c <- PyStr.first s ;;
      if (Ascii.eqb c "+" || Ascii.eqb c "-")%bool then
        let sign := if Ascii.eqb c "-" then - (1) else 1 in
        Ok (sign, Str (PyStr.drop_first s))
      else Ok (1, Str s)
  end.

(** [v * x] for a float [x]: a string cannot be multiplied by a float. *)
Definition mul_float (v : value) (x : Q) : result Q :=
  match v with
  | Num q => Ok (q * x)
  | Str _ => Raise TypeError
  end.

End Common.




(** ** The part of [dateutil] the program uses *)

Module Dateutil.

Local Open Scope Z_scope.

Record datetime : Type := mkdate { year : Z; month : Z; day : Z }.

Definition is_leap (y : Z) : bool :=
  (y mod 4 =? 0) && (negb (y mod 100 =? 0) || (y mod 400 =? 0)).

(** [calendar.monthrange(y, m)[1]] *)
Definition days_in_month (y m : Z) : Z :=
  if m =? 2 then (if is_leap y then 29 else 28)
  else if (m =? 4) || (m =? 6) || (m =? 9) || (m =? 11) then 30
  else 31.

Definition valid_day (d : datetime) : bool :=
  (1 <=? day d) && (day d <=? days_in_month (year d) (month d)).

(** A date that exists in the calendar. *)
Definition valid (d : datetime) : bool :=
  (1 <=? month d) && (month d <=? 12) && valid_day d.

Definition eqb (a b : datetime) : bool :=
  (year a =? year b) && (month a =? month b) && (day a =? day b).

(** [a <= b] *)
Definition leb (a b : datetime) : bool :=
  (year a <? year b)
  || (year a =? year b)
     && ((month a <? month b) || (month a =? month b) && (day a <=? day b)).

(** [dt + relativedelta(years=years, months=months)], for a number of
    months below twelve in absolute value: the year and month move, and the
    day is cut down to the last day of the month reached. *)
Definition add_relativedelta (dt : datetime) (years months : Z) : datetime :=
  let y := year dt + years in
  let m := month dt in
  let (y, m) :=
    if months =? 0 then (y, m)
    else
      let m := m + months in
      if 12 <? m then (y + 1, m - 12)
      else if m <? 1 then (y - 1, m + 12)
      else (y, m) in
  {| year := y; month := m; day := Z.min (days_in_month y m) (day dt) |}.

Definition month_index (d : datetime) : Z := year d * 12 + (month d - 1).

Definition on_month (i : Z) (dd : Z) : datetime :=
  {| year := i / 12; month := i mod 12 + 1; day := dd |}.

(** [rrule(freq=MONTHLY, dtstart=dtstart, until=until)]: the day of
    [dtstart] in every month from its own on, up to [until]; a month that
    has no such day is skipped. *)
Definition rrule_monthly (dtstart until : datetime) : list datetime :=
  let n := Z.to_nat (month_index until - month_index dtstart + 1) in
  filter (fun d => valid_day d && leb d until)
    (map (fun k => on_month (month_index dtstart + Z.of_nat k) (day dtstart))
       (seq 0 n)).

(** [rrule(freq=YEARLY, dtstart=dtstart, count=count)]: the day and month
    of [dtstart] in the following years, the first [count] that exist (a
    29th of February recurs in leap years only, which are at most eight
    years apart); nothing when [count] is not positive. *)
Definition rrule_yearly (dtstart : datetime) (count : Z) : list datetime :=
  let c := Z.to_nat count in
  firstn c
    (filter valid_day
       (map (fun k => {| year := year dtstart + Z.of_nat k;
                         month := month dtstart;
                         day := day dtstart |})
          (seq 0 (8 * c)))).

(** [date in dates] *)
Definition mem (d : datetime) (l : list datetime) : bool := existsb (eqb d) l.

End Dateutil.

(** ** borrow/mortgage.py *)

Module Mortgage.

Import Common Dateutil.
Local Open Scope Q_scope.

(** The attributes of a [mortgage] object.  [rate], [repayment] and
    [overpay] are numbers and [duration] is an integer, as the methods use
    them; [downpayment] is a number or a string, told apart when [repay]
    runs.  [amount] and [start] hold the strings ["Unknown"] and ["N/A"]
    until [repay] binds them: [None]. *)
Record mortgage : Type := {
  amount : option Q;
  rate : Q;
  repayment : Q;
  overpay : Q;
  duration : Z;
  downpayment : value;
  start : option datetime
}.

(** The object [mortgage.__init__] leaves: the arguments are stored as they
    come, [amount] and [start] are not bound yet. *)
Definition fresh (rate : Q) (duration : Z) (repayment overpay : Q)
    (downpayment : value) : mortgage :=
  {| amount := None;
     rate := rate;
     repayment := repayment;
     overpay := overpay;
     duration := duration;
     downpayment := downpayment;
     start := None |}.

(** [mortgage(rate, duration, repayment, overpay, downpayment)]: the
    constructor has no statement that can raise. *)
Definition init (rate : Q) (duration : Z) (repayment overpay : Q)
    (downpayment : value) : result mortgage :=
  Ok (fresh rate duration repayment overpay downpayment).

(** [repayment_duration]: the payment dates, from a month after the start
    to the end of the term.  Adding a [relativedelta] to an unbound start
    (a string) is a [TypeError]. *)
Definition repayment_duration (self : mortgage) : result (list datetime) :=
  match start self with
  | None => Raise TypeError
  | Some s =>
      let end_ := add_relativedelta s (duration self) 0 in
      let start_ := add_relativedelta s 0 1 in
      Ok (rrule_monthly start_ end_)
  end.

(** [calculate_interest] *)
Definition calculate_interest (self : mortgage) (outstanding : Q) : Q :=
  outstanding * (rate self / 12).

(** [calculate_overpay] *)
Definition calculate_overpay (self : mortgage) (date : datetime)
    (outstanding : Q) : result Q :=
  match start self with
  | None => Raise TypeError
  | Some s =>
      let first := add_relativedelta s 1 0 in
      if mem date (rrule_yearly first (duration self - 1)) then
        let lump := outstanding * overpay self in
        Ok (if Qgtb outstanding lump then lump else outstanding)
      else Ok 0
  end.

(** The standard monthly repayment of [calculate_repayment]:
    [self.repayment if (outstanding > self.repayment) else outstanding]. *)
Definition nominal (self : mortgage) (outstanding : Q) : Q :=
  if Qgtb outstanding (repayment self) then repayment self else outstanding.

(** [calculate_repayment] *)
Definition calculate_repayment (self : mortgage) (date : datetime)
    (outstanding : Q) : result Q :=
  let paid := nominal self outstanding in
  if truthy (overpay self) then
    lump <- calculate_overpay self date (outstanding - paid) ;;
    Ok (paid + lump)
  else Ok paid.

(** [calculate_downpayment] *)
Definition calculate_downpayment (self : mortgage) (outstanding : Q)
    : result Q :=
  ' (sign, magnitude) <- sign_magnitude (downpayment self) ;;
  magnitude <-
    match magnitude with
    | Str s =>
        c <- PyStr.last s ;;
        if Ascii.eqb c "%" then
          v <- sanitize_percent magnitude ;;
          x <- mul_float v outstanding ;;
          Ok (Num x)
        else Ok magnitude
    | Num _ => Ok magnitude
    end ;;
  mul_float magnitude sign.

(** The local variables of [repay] that its loop updates; [date] is
    unbound ([None]) until the loop has entered an iteration. *)
Record locals : Type := {
  interests : Q;
  repayments : Q;
  outstanding : Q;
  date : option datetime
}.

(** What one iteration of the loop did: the balance before the interest
    was added, the interest, the balance with it, the repayment made
    ([None] when the loop left instead) and the balance after. *)
Record period : Type := {
  p_date : datetime;
  p_before : Q;
  p_interest : Q;
  p_accrued : Q;
  p_repayment : option Q;
  p_after : Q
}.

(** The [for] loop of [repay] over the payment dates, with the record of
    the iterations it entered. *)
Fixpoint repay_loop (self : mortgage) (dates : list datetime) (st : locals)
    : result (locals * list period) :=
  match dates with
  | [] => Ok (st, [])
  | d :: rest =>
      let interest := calculate_interest self (outstanding st) in
      let interests' := interests st + interest in
      let outstanding' := outstanding st + interest in
      if Qgtb outstanding' 0 then
        paid <- calculate_repayment self d outstanding' ;;
        let st' := {| interests := interests';
                      repayments := repayments st + paid;
                      outstanding := outstanding' - paid;
                      date := Some d |} in
        ' (fin, tr) <- repay_loop self rest st' ;;
        Ok (fin, {| p_date := d;
                    p_before := outstanding st;
                    p_interest := interest;
                    p_accrued := outstanding';
                    p_repayment := Some paid;
                    p_after := outstanding' - paid |} :: tr)
      else
        Ok ({| interests := interests';
               repayments := repayments st;
               outstanding := outstanding';
               date := Some d |},
            [{| p_date := d;
                p_before := outstanding st;
                p_interest := interest;
                p_accrued := outstanding';
                p_repayment := None;
                p_after := outstanding' |}])
  end.

(** The state of [repay] when it reaches its [return]: the object with
    [start] and [amount] bound, the resolved downpayment, the locals and
    the iterations made. *)
Record run : Type := {
  r_self : mortgage;
  r_downpayment : Q;
  r_locals : locals;
  r_periods : list period
}.

Definition bind_start (self : mortgage) (outstanding : Q) (start : datetime)
    : mortgage :=
  {| amount := Some outstanding;
     rate := rate self;
     repayment := repayment self;
     overpay := overpay self;
     duration := duration self;
     downpayment := downpayment self;
     start := Some start |}.

Definition repay_run (self : mortgage) (outstanding : Q) (start : datetime)
    : result run :=
  let self := bind_start self outstanding start in
  downpayment <- calculate_downpayment self outstanding ;;
  let outstanding := outstanding - downpayment in
  dates <- repayment_duration self ;;
  ' (fin, tr) <- repay_loop self dates
                   {| interests := 0; repayments := 0;
                      outstanding := outstanding; date := None |} ;;
  Ok {| r_self := self; r_downpayment := downpayment;
        r_locals := fin; r_periods := tr |}.

(** [repay]: the tuple returned; reading the loop variable [date] when
    the loop made no iteration is an [UnboundLocalError]. *)
Definition repay (self : mortgage) (outstanding : Q) (start : datetime)
    : result (Q * Q * datetime) :=
  r <- repay_run self outstanding start ;;
  match date (r_locals r) with
  | None => Raise UnboundLocalError
  | Some d =>
      Ok (interests (r_locals r),
          repayments (r_locals r) + r_downpayment r,
          d)
  end.

(** What an iteration entered at date [d] from the locals [st] records. *)
Definition left_at (self : mortgage) (d : datetime) (st : locals) : period :=
  let interest := calculate_interest self (outstanding st) in
  {| p_date := d;
     p_before := outstanding st;
     p_interest := interest;
     p_accrued := outstanding st + interest;
     p_repayment := None;
     p_after := outstanding st + interest |}.

Definition paid_at (self : mortgage) (d : datetime) (st : locals) (paid : Q) : period :=
  let interest := calculate_interest self (outstanding st) in
  {| p_date := d;
     p_before := outstanding st;
     p_interest := interest;
     p_accrued := outstanding st + interest;
     p_repayment := Some paid;
     p_after := outstanding st + interest - paid |}.

Definition after_leaving (self : mortgage) (d : datetime) (st : locals) : locals :=
  let interest := calculate_interest self (outstanding st) in
  {| interests := interests st + interest;
     repayments := repayments st;
     outstanding := outstanding st + interest;
     date := Some d |}.

Definition after_paying (self : mortgage) (d : datetime) (st : locals) (paid : Q) : locals :=
  let interest := calculate_interest self (outstanding st) in
  {| interests := interests st + interest;
     repayments := repayments st + paid;
     outstanding := outstanding st + interest - paid;
     date := Some d |}.

(** An iteration, as [repay] makes it: interest is computed on the
    balance it finds and added; then either the balance is not positive
    and the loop leaves, or the repayment computed for that date on the
    balance with interest is taken off. *)
Definition period_ok (self : mortgage) (p : period) : Prop :=
  p_interest p = calculate_interest self (p_before p)
  /\ p_accrued p = p_before p + p_interest p
  /\ match p_repayment p with
     | None => p_accrued p <= 0 /\ p_after p = p_accrued p
     | Some paid =>
         0 < p_accrued p
         /\ calculate_repayment self (p_date p) (p_accrued p) = Ok paid
         /\ p_after p = p_accrued p - paid
     end.

(** The number of dates, as an amount. *)
Definition count (dates : list datetime) : Q :=
  inject_Z (Z.of_nat (List.length dates)).

(** The locals [repay] enters its loop with. *)
Definition entering (balance : Q) : locals :=
  {| interests := 0; repayments := 0; outstanding := balance; date := None |}.

End Mortgage.

(** ** borrow/loan.py *)

Module Loan.

Import Common Dateutil.
Local Open Scope Q_scope.

(** The attributes of a [loan] object that [payoff] reads and writes;
    [cost] is the string ["Unknown"] and [end] is missing until [payoff]
    sets them: [None].  ([duration], derived from [start] and [end] for
    the report, is left out.) *)
Record loan : Type := {
  amount : Q;
  outstanding : Q;
  cost : option Q;
  start : datetime;
  mortgages : list Mortgage.mortgage;
  end_ : option datetime
}.

(** [loan.__init__], with the list that [load_mortgages] builds from the
    file given as an argument. *)
Definition init (amount : Q) (start : datetime)
    (mortgages : list Mortgage.mortgage) : loan :=
  {| amount := amount; outstanding := amount; cost := None;
     start := start; mortgages := mortgages; end_ := None |}.

(** The body of the [while] loop of [payoff] up to its test: the mortgage
    [m] has been popped, [rest] is what remains in the list. *)
Definition payoff_body (m : Mortgage.mortgage) (rest : list Mortgage.mortgage)
    (self : loan) (start_ : datetime) : result (loan * datetime) :=
  ' (increase, decrease, current) <- Mortgage.repay m (outstanding self) start_ ;;
  cost' <- match cost self with
           | Some c => Ok (c + increase)
           | None => Raise TypeError
           end ;;
  Ok ({| amount := amount self;
         outstanding := outstanding self - (decrease - increase);
         cost := Some cost';
         start := start self;
         mortgages := rest;
         end_ := Some current |}, current).

Fixpoint payoff_loop (ms : list Mortgage.mortgage) (self : loan)
    (start_ : datetime) : result loan :=
  match ms with
  | [] => Ok self
  | m :: rest =>
      ' (self', current) <- payoff_body m rest self start_ ;;
      if negb (Qgtb (outstanding self') 0) then Ok self'
      else payoff_loop rest self' current
  end.

(** [payoff] *)
Definition payoff (self : loan) : result loan :=
  let self := {| amount := amount self;
                 outstanding := outstanding self;
                 cost := Some 0;
                 start := start self;
                 mortgages := mortgages self;
                 end_ := end_ self |} in
  payoff_loop (mortgages self) self (start self).

(** The states of the loan after each mortgage that [payoff] processes:
    after the first of the list, and, while the balance is still positive,
    after each one that follows. *)
Inductive after_instrument
  : list Mortgage.mortgage -> loan -> datetime -> loan -> Prop :=
| after_first m rest self start_ self' current :
    payoff_body m rest self start_ = Ok (self', current) ->
    after_instrument (m :: rest) self start_ self'
| after_next m rest self start_ self' current self'' :
    payoff_body m rest self start_ = Ok (self', current) ->
    Qgtb (outstanding self') 0 = true ->
    after_instrument rest self' current self'' ->
    after_instrument (m :: rest) self start_ self''.


End Loan.

(** ** The same code over binary64 *)

Module Binary64.

Local Open Scope float_scope.

(** A Python [int] is taken as the float of the same value: the integers
    the program meets (principal, repayments, their sums) are far below
    2^53, where binary64 holds and adds integers exactly, and any
    operation of an [int] with a [float] converts it first. *)
Fixpoint of_pos (p : positive) : float :=
  match p with
  | xH => 1
  | xO p => 2 * of_pos p
  | xI p => 2 * of_pos p + 1
  end.

Definition of_Z (z : Z) : float :=
  match z with
  | Z0 => 0
  | Zpos p => of_pos p
  | Zneg p => - of_pos p
  end.

(** [float(s)], from the decimal literal read by [PyStr.float]: the
    digits over the power of ten, one division.  This is the float
    nearest to the literal when the digits make an integer below 2^53 and
    the power of ten is at most 10^22. *)
Definition float_of_string (s : string) : result float :=
  match PyStr.float s with
  | Ok q => Ok (of_Z (Qnum q) / of_Z (Zpos (Qden q)))
  | Raise e => Raise e
  end.

(** [a > b] *)
Definition gtb (a b : float) : bool := PrimFloat.ltb b a.

(** Truth of a float: not zero. *)
Definition truthy (a : float) : bool := negb (PrimFloat.eqb a 0).

Module Common.

Inductive value : Type :=
| Num (x : float)
| Str (s : string).

(** [sanitize_percent] *)
Definition sanitize_percent (v : value) : result value :=
  match v with
  | Num _ => Raise TypeError
  | Str s =>
      let s := PyStr.strip s in
      c <- PyStr.last s ;;
      if Ascii.eqb c "%" then
        f <- float_of_string (PyStr.drop_last s) ;;
        Ok (Num (f / 100))
      else Ok (Str s)
  end.

(** [sign_magnitude] *)
Definition sign_magnitude (v : value) : result (float * value) :=
  match v with
  | Num x =>
      let sign := if gtb 0 x then - (1) else 1 in
      Ok (sign, Num (abs x))
  | Str s =>
      c <- PyStr.first s ;;
      if (Ascii.eqb c "+" || Ascii.eqb c "-")%bool then
        let sign := if Ascii.eqb c "-" then - (1) else 1 in
        Ok (sign, Str (PyStr.drop_first s))
      else Ok (1, Str s)
  end.

(** [v * x] for a float [x] *)
Definition mul_float (v : value) (x : float) : result float :=
  match v with
  | Num y => Ok (y * x)
  | Str _ => Raise TypeError
  end.

End Common.

Module Mortgage.

Import Common Dateutil.

Record mortgage : Type := {
  amount : option float;
  rate : float;
  repayment : float;
  overpay : float;
  duration : Z;
  downpayment : value;
  start : option datetime
}.

Definition fresh (rate : float) (duration : Z) (repayment overpay : float)
    (downpayment : value) : mortgage :=
  {| amount := None;
     rate := rate;
     repayment := repayment;
     overpay := overpay;
     duration := duration;
     downpayment := downpayment;
     start := None |}.

(** [repayment_duration] *)
Definition repayment_duration (self : mortgage) : result (list datetime) :=
  match start self with
  | None => Raise TypeError
  | Some s =>
      let end_ := add_relativedelta s (duration self) 0 in
      let start_ := add_relativedelta s 0 1 in
      Ok (rrule_monthly start_ end_)
  end.

(** [calculate_interest] *)
Definition calculate_interest (self : mortgage) (outstanding : float)
    : float :=
  outstanding * (rate self / 12).

(** [calculate_overpay] *)
Definition calculate_overpay (self : mortgage) (date : datetime)
    (outstanding : float) : result float :=
  match start self with
  | None => Raise TypeError
  | Some s =>
      let first := add_relativedelta s 1 0 in
      if mem date (rrule_yearly first (duration self - 1)) then
        let lump := outstanding * overpay self in
        Ok (if gtb outstanding lump then lump else outstanding)
      else Ok 0
  end.

Definition nominal (self : mortgage) (outstanding : float) : float :=
  if gtb outstanding (repayment self) then repayment self else outstanding.

(** [calculate_repayment] *)
Definition calculate_repayment (self : mortgage) (date : datetime)
    (outstanding : float) : result float :=
  let paid := nominal self outstanding in
  if truthy (overpay self) then
    lump <- calculate_overpay self date (outstanding - paid) ;;
    Ok (paid + lump)
  else Ok paid.

(** [calculate_downpayment] *)
Definition calculate_downpayment (self : mortgage) (outstanding : float)
    : result float :=
  ' (sign, magnitude) <- sign_magnitude (downpayment self) ;;
  magnitude <-
    match magnitude with
    | Str s =>
        c <- PyStr.last s ;;
        if Ascii.eqb c "%" then
          v <- sanitize_percent magnitude ;;
          x <- mul_float v outstanding ;;
          Ok (Num x)
        else Ok magnitude
    | Num _ => Ok magnitude
    end ;;
  mul_float magnitude sign.

Record locals : Type := {
  interests : float;
  repayments : float;
  outstanding : float;
  date : option datetime
}.

Record period : Type := {
  p_date : datetime;
  p_before : float;
  p_interest : float;
  p_accrued : float;
  p_repayment : option float;
  p_after : float
}.

(** The [for] loop of [repay], with the record of its iterations. *)
Fixpoint repay_loop (self : mortgage) (dates : list datetime) (st : locals)
    : result (locals * list period) :=
  match dates with
  | [] => Ok (st, [])
  | d :: rest =>
      let interest := calculate_interest self (outstanding st) in
      let interests' := interests st + interest in
      let outstanding' := outstanding st + interest in
      if gtb outstanding' 0 then
        paid <- calculate_repayment self d outstanding' ;;
        let st' := {| interests := interests';
                      repayments := repayments st + paid;
                      outstanding := outstanding' - paid;
                      date := Some d |} in
        ' (fin, tr) <- repay_loop self rest st' ;;
        Ok (fin, {| p_date := d;
                    p_before := outstanding st;
                    p_interest := interest;
                    p_accrued := outstanding';
                    p_repayment := Some paid;
                    p_after := outstanding' - paid |} :: tr)
      else
        Ok ({| interests := interests';
               repayments := repayments st;
               outstanding := outstanding';
               date := Some d |},
            [{| p_date := d;
                p_before := outstanding st;
                p_interest := interest;
                p_accrued := outstanding';
                p_repayment := None;
                p_after := outstanding' |}])
  end.

Record run : Type := {
  r_self : mortgage;
  r_downpayment : float;
  r_locals : locals;
  r_periods : list period
}.

Definition bind_start (self : mortgage) (outstanding : float)
    (start : datetime) : mortgage :=
  {| amount := Some outstanding;
     rate := rate self;
     repayment := repayment self;
     overpay := overpay self;
     duration := duration self;
     downpayment := downpayment self;
     start := Some start |}.

(** The state of [repay] at its [return]. *)
Definition repay_run (self : mortgage) (outstanding : float)
    (start : datetime) : result run :=
  let self := bind_start self outstanding start in
  downpayment <- calculate_downpayment self outstanding ;;
  let outstanding := outstanding - downpayment in
  dates <- repayment_duration self ;;
  ' (fin, tr) <- repay_loop self dates
                   {| interests := 0; repayments := 0;
                      outstanding := outstanding; date := None |} ;;
  Ok {| r_self := self; r_downpayment := downpayment;
        r_locals := fin; r_periods := tr |}.

(** [repay] *)
Definition repay (self : mortgage) (outstanding : float) (start : datetime)
    : result (float * float * datetime) :=
  r <- repay_run self outstanding start ;;
  match date (r_locals r) with
  | None => Raise UnboundLocalError
  | Some d =>
      Ok (interests (r_locals r),
          repayments (r_locals r) + r_downpayment r,
          d)
  end.

End Mortgage.

Module Loan.

Import Dateutil.

Record loan : Type := {
  amount : float;
  outstanding : float;
  cost : option float;
  start : datetime;
  mortgages : list Mortgage.mortgage;
  end_ : option datetime
}.

Definition init (amount : float) (start : datetime)
    (mortgages : list Mortgage.mortgage) : loan :=
  {| amount := amount; outstanding := amount; cost := None;
     start := start; mortgages := mortgages; end_ := None |}.

(** The body of the [while] loop of [payoff] up to its test. *)
Definition payoff_body (m : Mortgage.mortgage)
    (rest : list Mortgage.mortgage) (self : loan) (start_ : datetime)
    : result (loan * datetime) :=
  ' (increase, decrease, current) <-
      Mortgage.repay m (outstanding self) start_ ;;
  cost' <- match cost self with
           | Some c => Ok (c + increase)
           | None => Raise TypeError
           end ;;
  Ok ({| amount := amount self;
         outstanding := outstanding self - (decrease - increase);
         cost := Some cost';
         start := start self;
         mortgages := rest;
         end_ := Some current |}, current).

Fixpoint payoff_loop (ms : list Mortgage.mortgage) (self : loan)
    (start_ : datetime) : result loan :=
  match ms with
  | [] => Ok self
  | m :: rest =>
      ' (self', current) <- payoff_body m rest self start_ ;;
      if negb (gtb (outstanding self') 0) then Ok self'
      else payoff_loop rest self' current
  end.

(** [payoff] *)
Definition payoff (self : loan) : result loan :=
  let self := {| amount := amount self;
                 outstanding := outstanding self;
                 cost := Some 0;
                 start := start self;
                 mortgages := mortgages self;
                 end_ := end_ self |} in
  payoff_loop (mortgages self) self (start self).

End Loan.

End Binary64.

(** ** Concrete instruments in binary64 *)

Module Cases64.

Import Dateutil.
Import Binary64.Common.
Local Open Scope float_scope.

(** Scenario A of the specification: 6% (what [sanitize_percent] makes of
    the string: [float("6") / 100]) over 25 years, 700 a month, on a
    principal of 100000. *)
Definition scenario_a : Binary64.Mortgage.mortgage :=
  Binary64.Mortgage.fresh (6 / 100) 25 700 0 (Num 0).

(** The same with 650 a month. *)
Definition scenario_650 : Binary64.Mortgage.mortgage :=
  Binary64.Mortgage.fresh (6 / 100) 25 650 0 (Num 0).

(** No interest, 0.1 a month over one year. *)
Definition dimes : Binary64.Mortgage.mortgage :=
  Binary64.Mortgage.fresh 0 1 (1 / 10) 0 (Num 0).

(** 6% with a monthly repayment equal to the interest on
    131071.99999999801. *)
Definition level : Binary64.Mortgage.mortgage :=
  Binary64.Mortgage.fresh (6 / 100) 1 0x1.47ae147ae1423p+9 0 (Num 0).

(** A downpayment of 15% of the balance. *)
Definition fifteen : Binary64.Mortgage.mortgage :=
  Binary64.Mortgage.fresh (6 / 100) 1 700 0 (Str "15%").

End Cases64.

(** ** Concrete instruments and loans used below *)

Module Cases.

Import Common Dateutil.
Local Open Scope Q_scope.

Definition new_year : datetime := mkdate 2020 1 1.

(** 6% over one year, 700 a month. *)
Definition plain : Mortgage.mortgage :=
  Mortgage.fresh (6 # 100) 1 700 0 (Num 0).

(** 12% over one year, 700 a month. *)
Definition costly : Mortgage.mortgage :=
  Mortgage.fresh (12 # 100) 1 700 0 (Num 0).

(** A negative monthly repayment, without interest. *)
Definition drawing : Mortgage.mortgage :=
  Mortgage.fresh 0 1 (- (100)) 0 (Num 0).

(** [overpay] given as the amount 1500, over five years. *)
Definition flat : Mortgage.mortgage :=
  Mortgage.fresh (6 # 100) 5 700 1500 (Num 0).


(** A tenth of the balance paid down at the start. *)
Definition tenth : Mortgage.mortgage :=
  Mortgage.fresh (6 # 100) 1 700 0 (Str "10%").

(** No interest. *)
Definition interest_free : Mortgage.mortgage :=
  Mortgage.fresh 0 1 700 0 (Num 0).

(** A loan of 500 on [plain], as [payoff] has it when its loop starts. *)
Definition small_loan : Loan.loan :=
  {| Loan.amount := 500; Loan.outstanding := 500; Loan.cost := Some 0;
     Loan.start := new_year; Loan.mortgages := [plain];
     Loan.end_ := None |}.

End Cases.

(** ** loan.load_mortgages, on the mapping read from the file *)

Module Load.

Import Common.
Local Open Scope Q_scope.
Local Open Scope string_scope.

(** A Python [dict] with string keys, as the list of its items; [d[k]] is
    the value of the first item with key [k]. *)
Definition dict (A : Type) : Type := list (string * A).

Fixpoint lookup {A : Type} (k : string) (d : dict A) : option A :=
  match d with
  | [] => None
  | (k', v) :: rest => if String.eqb k k' then Some v else lookup k rest
  end.

(** What [load_mortgages] can raise: [KeyError] for a field that is not
    there, or what [sanitize_percent] raises. *)
Inductive load_exn : Type :=
| KeyError (key : string)
| Sanitize (e : exn).

Inductive loaded (A : Type) : Type :=
| Loaded (a : A)
| Failed (e : load_exn).

Arguments Loaded {A} a.
Arguments Failed {A} e.

(** [d[k]] *)
Definition item (k : string) (d : dict value) : loaded value :=
  match lookup k d with
  | Some v => Loaded v
  | None => Failed (KeyError k)
  end.

(** The arguments [load_mortgages] passes to [mortgage(...)] for one entry
    of the file, which is all the object made of them holds: [rate],
    [duration], [repayment], [overpay], [downpayment]. *)
Record arguments : Type := {
  a_rate : value;
  a_duration : value;
  a_repayment : value;
  a_overpay : value;
  a_downpayment : value
}.

(** The body of the loop of [load_mortgages] for one entry: the required
    fields in the order the code reads them, then the optional ones. *)
Definition load_entry (fields : dict value) : loaded arguments :=
  match item "rate" fields with
  | Failed e => Failed e
  | Loaded raw_rate =>
      match sanitize_percent raw_rate with
      | Raise e => Failed (Sanitize e)
      | Ok rate =>
          match item "years" fields with
          | Failed e => Failed e
          | Loaded years =>
              match item "repayment" fields with
              | Failed e => Failed e
              | Loaded repayment =>
                  let downpayment :=
                    match lookup "downpayment" fields with
                    | Some v => v
                    | None => Num 0
                    end in
                  match lookup "overpay" fields with
                  | Some raw =>
                      match sanitize_percent raw with
                      | Raise e => Failed (Sanitize e)
                      | Ok overpay =>
                          Loaded {| a_rate := rate;
                                    a_duration := years;
                                    a_repayment := repayment;
                                    a_overpay := overpay;
                                    a_downpayment := downpayment |}
                      end
                  | None =>
                      Loaded {| a_rate := rate;
                                a_duration := years;
                                a_repayment := repayment;
                                a_overpay := Num 0;
                                a_downpayment := downpayment |}
                  end
              end
          end
      end
  end.

(** [load_mortgages], from the mapping [yaml.safe_load] returned: the
    entries in the order of the file, each a mapping of field names to
    numbers or strings. *)
Fixpoint load_mortgages (mortgages : dict (dict value))
    : loaded (list arguments) :=
  match mortgages with
  | [] => Loaded []
  | (_, fields) :: rest =>
      match load_entry fields with
      | Failed e => Failed e
      | Loaded m =>
          match load_mortgages rest with
          | Failed e => Failed e
          | Loaded lm => Loaded (m :: lm)
          end
      end
  end.

(** A field of an entry given as a number. *)
Definition numeric (k : string) (fields : dict value) : bool :=
  match lookup k fields with
  | Some (Num _) => true
  | _ => false
  end.

(** The value of an optional field, or the default [0.0]. *)
Definition optional (k : string) (fields : dict value) : value :=
  match lookup k fields with
  | Some v => v
  | None => Num 0
  end.

(** What [load_mortgages] makes of one entry of the file, when it makes
    something: [years], [repayment] and [downpayment] go in as they are
    read, [rate] and [overpay] through [sanitize_percent]. *)
Definition made_from (fields : dict value) (a : arguments) : Prop :=
  (exists raw,
     lookup "rate" fields = Some raw
     /\ sanitize_percent raw = Ok (a_rate a))
  /\ lookup "years" fields = Some (a_duration a)
  /\ lookup "repayment" fields = Some (a_repayment a)
  /\ a_downpayment a = optional "downpayment" fields
  /\ match lookup "overpay" fields with
     | Some raw => sanitize_percent raw = Ok (a_overpay a)
     | None => a_overpay a = Num 0
     end.

(** A number that [sanitize_percent] made of a string ending, once
    stripped, in a percent sign. *)
Definition from_percent (raw : value) (q : Q) : Prop :=
  exists s f,
    raw = Str s
    /\ PyStr.last (PyStr.strip s) = Ok "%"%char
    /\ PyStr.float (PyStr.drop_last (PyStr.strip s)) = Ok f
    /\ q = f / 100.

End Load.

(** ** Notions used to state the properties *)

Module Notions.

Import Dateutil Mortgage.
Local Open Scope Q_scope.

(** A string of white space only. *)
Fixpoint all_space (s : string) : bool :=
  match s with
  | EmptyString => true
  | String c r => PyStr.is_space c && all_space r
  end.

(** The interest added over the iterations recorded. *)
Fixpoint total_interest (tr : list period) : Q :=
  match tr with
  | [] => 0
  | p :: rest => p_interest p + total_interest rest
  end.

(** The repayments made over the iterations recorded. *)
Fixpoint total_paid (tr : list period) : Q :=
  match tr with
  | [] => 0
  | p :: rest =>
      match p_repayment p with
      | Some paid => paid
      | None => 0
      end + total_paid rest
  end.

(** An iteration that made a repayment. *)
Definition repaid_in (p : period) : bool :=
  match p_repayment p with
  | Some _ => true
  | None => false
  end.

(** A start date whose day the month after it lacks, so that the payment
    dates fall on an earlier day of the month. *)
Definition clamped (s : datetime) : bool :=
  negb (day (add_relativedelta s 0 1) =? day s)%Z.


(** The loan with another list of mortgages left to process. *)
Definition with_mortgages (self : Loan.loan) (ms : list mortgage)
    : Loan.loan :=
  {| Loan.amount := Loan.amount self;
     Loan.outstanding := Loan.outstanding self;
     Loan.cost := Loan.cost self;
     Loan.start := Loan.start self;
     Loan.mortgages := ms;
     Loan.end_ := Loan.end_ self |}.

End Notions.

(** * Properties *)

(** ** Comparisons and small checks of the embedding *)

Lemma Qgtb_true (a b : Q) : Qgtb a b = true <-> b < a.
Proof.
  unfold Qgtb. rewrite negb_true_iff. split; intro H.
  - destruct (Qlt_le_dec b a) as [Hlt|Hle]; [exact Hlt|].
    apply Qle_bool_iff in Hle. congruence.
  - destruct (Qle_bool a b) eqn:E; [|reflexivity].
    apply Qle_bool_iff in E. lra.
Qed.

Lemma Qgtb_false (a b : Q) : Qgtb a b = false <-> a <= b.
Proof.
  unfold Qgtb. rewrite negb_false_iff. apply Qle_bool_iff.
Qed.

Lemma truthy_true (a : Q) : truthy a = true <-> ~ a == 0.
Proof.
  unfold truthy. rewrite negb_true_iff. split; intro H.
  - intro E. apply Qeq_bool_iff in E. congruence.
  - destruct (Qeq_bool a 0) eqn:E; [|reflexivity].
    apply Qeq_bool_iff in E. contradiction.
Qed.


Example strip_example : PyStr.strip "  10% "%string = "10%"%string.
Proof. reflexivity. Qed.

Example float_example : PyStr.float " -12.50e1"%string = Ok (-1250 # 10).
Proof. reflexivity. Qed.

Example sanitize_percent_example :
  Common.sanitize_percent (Common.Str " 6% ") = Ok (Common.Num ((6 # 1) / 100)).
Proof. reflexivity. Qed.

Example rrule_monthly_31st :
  Dateutil.rrule_monthly (Dateutil.mkdate 2021 1 31) (Dateutil.mkdate 2021 5 31)
  = [Dateutil.mkdate 2021 1 31; Dateutil.mkdate 2021 3 31;
     Dateutil.mkdate 2021 5 31].
Proof. reflexivity. Qed.

Example add_relativedelta_clamps :
  Dateutil.add_relativedelta (Dateutil.mkdate 2020 1 31) 0 1
  = Dateutil.mkdate 2020 2 29
  /\ Dateutil.add_relativedelta (Dateutil.mkdate 2020 2 29) 1 0
     = Dateutil.mkdate 2021 2 28.
Proof. split; reflexivity. Qed.

(** ** One repayment *)

Section OneRepayment.

Import Common Dateutil Mortgage.
Local Open Scope Q_scope.

Variable self : mortgage.

Lemma nominal_le (o : Q) : nominal self o <= o.
Proof.
  unfold nominal. destruct (Qgtb o (repayment self)) eqn:E.
  - apply Qgtb_true in E. lra.
  - lra.
Qed.


Lemma nominal_cases (o : Q) :
  (repayment self < o /\ nominal self o = repayment self)
  \/ (o <= repayment self /\ nominal self o = o).
Proof.
  unfold nominal. destruct (Qgtb o (repayment self)) eqn:E.
  - left. apply Qgtb_true in E. split; [exact E | reflexivity].
  - right. apply Qgtb_false in E. split; [exact E | reflexivity].
Qed.

(** The lump of [calculate_overpay] is never more than the balance it is
    taken from. *)
Lemma calculate_overpay_le (d : datetime) (o lump : Q) :
  calculate_overpay self d o = Ok lump -> lump <= o \/ lump = 0.
Proof.
  unfold calculate_overpay. destruct (start self); [|discriminate].
  destruct (mem d _).
  - destruct (Qgtb o (o * overpay self)) eqn:E; intro H; inversion H; subst.
    + apply Qgtb_true in E. left. lra.
    + left. lra.
  - intro H. inversion H. right. reflexivity.
Qed.

(** With a non-negative factor and balance the lump is not negative. *)
Lemma calculate_overpay_nonneg (d : datetime) (o lump : Q) :
  0 <= overpay self -> 0 <= o ->
  calculate_overpay self d o = Ok lump -> 0 <= lump.
Proof.
  intros Hov Ho. unfold calculate_overpay.
  destruct (start self); [|discriminate].
  destruct (mem d _).
  - destruct (Qgtb o (o * overpay self)) eqn:E; intro H; inversion H; subst.
    + apply Qmult_le_0_compat; assumption.
    + exact Ho.
  - intro H. inversion H. lra.
Qed.

(** A lump is paid only with a non-zero [overpay], on one of the yearly
    recurrences of the first anniversary of the bound start, of which
    there are [duration - 1]. *)
Lemma overpay_only_on_anniversary (d : datetime) (o paid : Q) :
  calculate_repayment self d o = Ok paid ->
  ~ paid == nominal self o ->
  ~ overpay self == 0
  /\ exists s, start self = Some s
     /\ mem d (rrule_yearly (add_relativedelta s 1 0) (duration self - 1))
        = true.
Proof.
  unfold calculate_repayment. intros H Hne.
  destruct (truthy (overpay self)) eqn:T.
  - split; [apply truthy_true; exact T|].
    unfold calculate_overpay in H.
    destruct (start self) as [s|]; [|discriminate].
    exists s. split; [reflexivity|].
    destruct (mem d _); [reflexivity|].
    simpl in H. inversion H; subst. exfalso. apply Hne. lra.
  - inversion H; subst. exfalso. apply Hne. reflexivity.
Qed.

(** Once the start is bound, [calculate_repayment] returns. *)
Lemma calculate_repayment_ok (s d : datetime) (o : Q) :
  start self = Some s -> exists paid, calculate_repayment self d o = Ok paid.
Proof.
  intro Hs. unfold calculate_repayment, calculate_overpay. rewrite Hs.
  destruct (truthy (overpay self)); [|eexists; reflexivity].
  destruct (mem d _); simpl; eexists; reflexivity.
Qed.

(** A repayment never exceeds the balance. *)
Lemma calculate_repayment_le (d : datetime) (o paid : Q) :
  0 <= o -> calculate_repayment self d o = Ok paid -> paid <= o.
Proof.
  intros Ho. unfold calculate_repayment.
  pose proof (nominal_le o) as Hn.
  destruct (truthy (overpay self)).
  - destruct (calculate_overpay self d (o - nominal self o)) as [lump|] eqn:E;
      [|discriminate].
    simpl. intro H. inversion H; subst.
    destruct (calculate_overpay_le _ _ _ E) as [Hl|Hl]; [lra|].
    rewrite Hl. lra.
  - intro H. inversion H; subst. exact Hn.
Qed.

(** With a non-negative [overpay] it is at least the nominal one. *)
Lemma calculate_repayment_ge (d : datetime) (o paid : Q) :
  0 <= overpay self ->
  calculate_repayment self d o = Ok paid -> nominal self o <= paid.
Proof.
  intros Hov. unfold calculate_repayment.
  pose proof (nominal_le o) as Hn.
  destruct (truthy (overpay self)).
  - destruct (calculate_overpay self d (o - nominal self o)) as [lump|] eqn:E;
      [|discriminate].
    simpl. intro H. inversion H; subst.
    assert (0 <= lump).
    { apply (calculate_overpay_nonneg d (o - nominal self o) lump);
        [exact Hov | lra | exact E]. }
    lra.
  - intro H. inversion H; subst. lra.
Qed.


End OneRepayment.

(** ** The repayment loop *)

Lemma last_cons_default {A : Type} (x : A) (l : list A) (a b : A) :
  List.last (x :: l) a = List.last (x :: l) b.
Proof.
  revert x. induction l as [|y l IH]; intro x; [reflexivity|].
  change (List.last (y :: l) a = List.last (y :: l) b). apply IH.
Qed.

Section RepayLoop.

Import Common Dateutil Mortgage.
Local Open Scope Q_scope.

Variable self : mortgage.

(** The two ways through one iteration. *)
Lemma repay_loop_cons (d : datetime) (rest : list datetime) (st fin : locals)
    (tr : list period) :
  repay_loop self (d :: rest) st = Ok (fin, tr) ->
  let accrued := outstanding st + calculate_interest self (outstanding st) in
  (accrued <= 0 /\ fin = after_leaving self d st /\ tr = [left_at self d st])
  \/ (0 < accrued
      /\ exists paid tr',
           calculate_repayment self d accrued = Ok paid
           /\ repay_loop self rest (after_paying self d st paid) = Ok (fin, tr')
           /\ tr = paid_at self d st paid :: tr').
Proof.
  simpl. destruct (Qgtb _ 0) eqn:E.
  - apply Qgtb_true in E.
    destruct (calculate_repayment self d _) as [paid|] eqn:R; [|discriminate].
    simpl.
    destruct (repay_loop self rest _) as [[fin' tr']|] eqn:L; [|discriminate].
    simpl. intro H. inversion H; subst. right. split; [exact E|].
    exists paid, tr'. repeat split; assumption.
  - apply Qgtb_false in E. intro H. inversion H; subst. left.
    repeat split. exact E.
Qed.

(** The loop returns once the start is bound. *)
Lemma repay_loop_ok (s : datetime) (dates : list datetime) :
  start self = Some s ->
  forall st, exists fin tr, repay_loop self dates st = Ok (fin, tr).
Proof.
  intro Hs. induction dates as [|d rest IH]; intro st.
  - exists st, []. reflexivity.
  - simpl. destruct (Qgtb _ 0).
    + destruct (calculate_repayment_ok self s d
                  (outstanding st + calculate_interest self (outstanding st)) Hs)
        as [paid Hp].
      rewrite Hp. simpl.
      destruct (IH (after_paying self d st paid)) as (fin & tr & Hl).
      unfold after_paying in Hl. rewrite Hl. simpl.
      eexists. eexists. reflexivity.
    + eexists. eexists. reflexivity.
Qed.

(** The balance the loop holds is the one it started from, plus the
    interest it added, minus the repayments it made. *)
Lemma repay_loop_balance (dates : list datetime) :
  forall st fin tr,
    repay_loop self dates st = Ok (fin, tr) ->
    outstanding fin
    == outstanding st + (interests fin - interests st)
       - (repayments fin - repayments st).
Proof.
  induction dates as [|d rest IH]; intros st fin tr H.
  - inversion H; subst. lra.
  - apply repay_loop_cons in H.
    destruct H as [(_ & -> & _) | (_ & paid & tr' & _ & Hl & _)].
    + simpl. lra.
    + apply IH in Hl. simpl in Hl. lra.
Qed.

(** The iterations recorded are those of a prefix of the dates, the first
    starts from the balance given, and [date] is the date of the last. *)
Lemma repay_loop_dates (dates : list datetime) :
  forall st fin tr,
    repay_loop self dates st = Ok (fin, tr) ->
    (exists rest, dates = map p_date tr ++ rest)
    /\ match tr with
       | [] => dates = [] /\ fin = st
       | p :: _ =>
           p_before p = outstanding st
           /\ p_interest p = calculate_interest self (outstanding st)
           /\ date fin = Some (p_date (List.last tr p))
       end.
Proof.
  induction dates as [|d rest IH]; intros st fin tr H.
  - inversion H; subst. split; [exists []; reflexivity | split; reflexivity].
  - apply repay_loop_cons in H.
    destruct H as [(_ & -> & ->) | (_ & paid & tr' & _ & Hl & ->)].
    + split; [exists rest; reflexivity|]. repeat split.
    + apply IH in Hl. destruct Hl as [[rest' Hr] Hlast]. split.
      * exists rest'. simpl. rewrite Hr at 1. reflexivity.
      * repeat split. destruct tr' as [|q tr''].
        -- destruct Hlast as [_ ->]. reflexivity.
        -- destruct Hlast as (_ & _ & ->). simpl.
           f_equal. f_equal. apply last_cons_default.
Qed.

End RepayLoop.

(** ** How the balance moves *)

Section Balance.

Import Common Dateutil Mortgage.
Local Open Scope Q_scope.

Variable self : mortgage.

Lemma repay_loop_periods (dates : list datetime) :
  forall st fin tr,
    repay_loop self dates st = Ok (fin, tr) -> Forall (period_ok self) tr.
Proof.
  induction dates as [|d rest IH]; intros st fin tr H.
  - inversion H; subst. constructor.
  - apply repay_loop_cons in H.
    destruct H as [(Hle & _ & ->) | (Hlt & paid & tr' & Hp & Hl & ->)].
    + constructor; [|constructor].
      repeat split. exact Hle.
    + constructor; [|exact (IH _ _ _ Hl)].
      repeat split; assumption.
Qed.

Lemma interest_nonneg (b : Q) :
  0 <= rate self -> 0 <= b -> 0 <= calculate_interest self b.
Proof.
  intros Hr Hb. unfold calculate_interest.
  apply Qmult_le_0_compat; [exact Hb|].
  unfold Qdiv. apply Qmult_le_0_compat; [exact Hr|]. discriminate.
Qed.

Lemma interest_mono (b c : Q) :
  0 <= rate self -> b <= c ->
  calculate_interest self b <= calculate_interest self c.
Proof.
  intros Hr Hbc. unfold calculate_interest.
  apply Qmult_le_compat_r; [exact Hbc|].
  unfold Qdiv. apply Qmult_le_0_compat; [exact Hr|]. discriminate.
Qed.

Lemma interest_zero : calculate_interest self 0 == 0.
Proof. unfold calculate_interest. ring. Qed.

Lemma interest_nonpos (b : Q) :
  0 <= rate self -> b <= 0 -> calculate_interest self b <= 0.
Proof.
  intros Hr Hb. rewrite <- interest_zero. apply interest_mono; assumption.
Qed.






End Balance.

(** ** The payment dates *)

Section Schedule.

Import Dateutil.
Local Open Scope Z_scope.

Lemma days_in_month_ge (y m : Z) : 28 <= days_in_month y m.
Proof.
  unfold days_in_month.
  destruct (m =? 2); [destruct (is_leap y); lia|].
  destruct ((m =? 4) || (m =? 6) || (m =? 9) || (m =? 11))%bool; lia.
Qed.

(** The month after [s], counted in months. *)
Lemma month_index_next (s : datetime) :
  month_index (add_relativedelta s 0 1) = year s * 12 + month s.
Proof.
  unfold add_relativedelta, month_index. simpl (1 =? 0).
  cbv iota.
  destruct (12 <? month s + 1); [simpl; lia|].
  destruct (month s + 1 <? 1); simpl; lia.
Qed.

Lemma month_index_years (s : datetime) (n : Z) :
  month_index (add_relativedelta s n 0) = (year s + n) * 12 + (month s - 1).
Proof. reflexivity. Qed.

(** The number of months the schedule runs through. *)
Lemma schedule_months (s : datetime) (n : Z) :
  month_index (add_relativedelta s n 0)
  - month_index (add_relativedelta s 0 1) + 1 = 12 * n.
Proof. rewrite month_index_next, month_index_years. lia. Qed.

(** A term that is not positive has no payment date. *)
Lemma schedule_empty (s : datetime) (n : Z) :
  n <= 0 ->
  rrule_monthly (add_relativedelta s 0 1) (add_relativedelta s n 0) = [].
Proof.
  intro Hn. unfold rrule_monthly. rewrite schedule_months.
  replace (Z.to_nat (12 * n)) with 0%nat by lia. reflexivity.
Qed.

(** A term of a year or more, from a date of the calendar, has a first
    payment date: a month after the start. *)
Lemma schedule_first (s : datetime) (n : Z) :
  valid s = true -> 1 <= n ->
  exists rest,
    rrule_monthly (add_relativedelta s 0 1) (add_relativedelta s n 0)
    = add_relativedelta s 0 1 :: rest.
Proof.
  intros Hv Hn. unfold valid, valid_day in Hv.
  apply andb_prop in Hv. destruct Hv as [Hm Hd].
  apply andb_prop in Hm. destruct Hm as [Hm1 Hm2].
  apply andb_prop in Hd. destruct Hd as [Hd1 _].
  apply Z.leb_le in Hm1, Hm2, Hd1.
  unfold rrule_monthly. rewrite schedule_months.
  destruct (Z.to_nat (12 * n)) as [|k] eqn:Ek; [lia|].
  simpl seq. simpl map. rewrite Z.add_0_r.
  set (first := add_relativedelta s 0 1).
  assert (1 <= month first <= 12) as Hfm.
  { unfold first, add_relativedelta. simpl (1 =? 0). cbv iota.
    destruct (12 <? month s + 1) eqn:E1; [apply Z.ltb_lt in E1; simpl; lia|].
    apply Z.ltb_ge in E1.
    destruct (month s + 1 <? 1) eqn:E2; [apply Z.ltb_lt in E2; lia|].
    simpl. lia. }
  assert (on_month (month_index first) (day first) = first) as Hon.
  { unfold on_month, month_index. destruct first as [fy fm fd]. simpl in *.
    f_equal.
    - symmetry. apply (Z.div_unique _ 12 fy (fm - 1)); lia.
    - assert ((fy * 12 + (fm - 1)) mod 12 = fm - 1) as ->; [|lia].
      symmetry. apply (Z.mod_unique _ 12 fy (fm - 1)); lia. }
  rewrite Hon.
  assert (valid_day first = true) as Hvd.
  { unfold valid_day.
    assert (day first
            = Z.min (days_in_month (year first) (month first)) (day s)) as ->.
    { unfold first, add_relativedelta. simpl (1 =? 0). cbv iota.
      destruct (12 <? month s + 1); [reflexivity|].
      destruct (month s + 1 <? 1); reflexivity. }
    pose proof (days_in_month_ge (year first) (month first)).
    apply andb_true_intro. split; apply Z.leb_le; lia. }
  assert (leb first (add_relativedelta s n 0) = true) as Hle.
  { assert ((year first = year s /\ month first = month s + 1)
            \/ (year first = year s + 1 /\ month first = 1
                /\ month s = 12)) as Hf.
    { unfold first, add_relativedelta. simpl (1 =? 0). cbv iota.
      destruct (12 <? month s + 1) eqn:E1.
      - apply Z.ltb_lt in E1. right. simpl. lia.
      - destruct (month s + 1 <? 1) eqn:E2; [apply Z.ltb_lt in E2; lia|].
        left. simpl. lia. }
    unfold leb.
    assert (year (add_relativedelta s n 0) = year s + n) as -> by reflexivity.
    assert (month (add_relativedelta s n 0) = month s) as -> by reflexivity.
    destruct (Z.ltb_spec (year first) (year s + n)); [reflexivity|].
    destruct (Z.eqb_spec (year first) (year s + n)); [|lia].
    destruct (Z.ltb_spec (month first) (month s)); [reflexivity|]. lia. }
  simpl filter. rewrite Hvd, Hle. simpl. eexists. reflexivity.
Qed.

End Schedule.

(** ** A run of [repay] *)

Section Repay.

Import Common Dateutil Mortgage.
Local Open Scope Q_scope.

Variable self : mortgage.

Lemma repay_run_inv (o : Q) (s : datetime) (r : run) :
  repay_run self o s = Ok r ->
  r_self r = bind_start self o s
  /\ calculate_downpayment self o = Ok (r_downpayment r)
  /\ exists dates,
       repayment_duration (bind_start self o s) = Ok dates
       /\ repay_loop (bind_start self o s) dates
            (entering (o - r_downpayment r))
          = Ok (r_locals r, r_periods r).
Proof.
  unfold repay_run.
  change (calculate_downpayment (bind_start self o s) o)
    with (calculate_downpayment self o).
  destruct (calculate_downpayment self o) as [dp|]; [|discriminate].
  simpl bind.
  destruct (repay_loop _ _ _) as [[fin tr]|] eqn:L; [|discriminate].
  simpl. intro H. inversion H; subst. simpl.
  split; [reflexivity|]. split; [reflexivity|].
  eexists. split; [reflexivity | exact L].
Qed.

Lemma repay_run_ok (o : Q) (s : datetime) (dp : Q) :
  calculate_downpayment self o = Ok dp ->
  exists r, repay_run self o s = Ok r /\ r_downpayment r = dp.
Proof.
  intro Hd. unfold repay_run.
  change (calculate_downpayment (bind_start self o s) o)
    with (calculate_downpayment self o).
  rewrite Hd. simpl bind.
  destruct (repay_loop_ok (bind_start self o s) s
              (rrule_monthly (add_relativedelta s 0 1)
                 (add_relativedelta s (duration self) 0))
              eq_refl (entering (o - dp))) as (fin & tr & L).
  unfold entering in L. rewrite L. simpl. eexists. split; reflexivity.
Qed.

(** The balance [repay] holds at its [return] is the balance it was
    given, minus what it reports as repaid, plus what it reports as
    interest. *)
Lemma repay_run_balance (o : Q) (s : datetime) (r : run) :
  repay_run self o s = Ok r ->
  outstanding (r_locals r)
  == o - (repayments (r_locals r) + r_downpayment r
          - interests (r_locals r)).
Proof.
  intro H. apply repay_run_inv in H.
  destruct H as (_ & _ & dates & _ & L).
  apply repay_loop_balance in L. simpl in L. lra.
Qed.

(** What [repay] returns, from the state at its [return]. *)
Lemma repay_of_run (o : Q) (s : datetime) (r : run) :
  repay_run self o s = Ok r ->
  repay self o s
  = match date (r_locals r) with
    | None => Raise UnboundLocalError
    | Some d =>
        Ok (interests (r_locals r),
            repayments (r_locals r) + r_downpayment r, d)
    end.
Proof. intro H. unfold repay. rewrite H. reflexivity. Qed.

Lemma repay_inv (o : Q) (s : datetime) (i rp : Q) (d : datetime) :
  repay self o s = Ok (i, rp, d) ->
  exists r,
    repay_run self o s = Ok r
    /\ date (r_locals r) = Some d
    /\ i = interests (r_locals r)
    /\ rp = repayments (r_locals r) + r_downpayment r.
Proof.
  unfold repay. destruct (repay_run self o s) as [r|]; [|discriminate].
  simpl. destruct (date (r_locals r)) as [d'|] eqn:Ed; [|discriminate].
  intro H. inversion H; subst. exists r.
  split; [reflexivity|]. split; [exact Ed|]. split; reflexivity.
Qed.

End Repay.

(** * The specification, clause by clause *)

Section Specification.

Import Common Dateutil Mortgage.
Local Open Scope Q_scope.

(** One pass of the loop of [payoff]: the principal is kept, and the new
    balance of the loan is the one [repay] held when it returned. *)
Lemma payoff_body_inv
    (m : mortgage) (rest : list mortgage) (self self' : Loan.loan)
    (start_ current : datetime) :
  Loan.payoff_body m rest self start_ = Ok (self', current) ->
  Loan.amount self' = Loan.amount self
  /\ exists r,
       repay_run m (Loan.outstanding self) start_ = Ok r
       /\ Loan.outstanding self' == outstanding (r_locals r).
Proof.
  unfold Loan.payoff_body. intro H.
  destruct (repay m (Loan.outstanding self) start_) as [[[i rp] d]|] eqn:R;
    [|discriminate].
  simpl in H. destruct (Loan.cost self) as [c|]; [|discriminate].
  simpl in H. inversion H; subst. simpl. split; [reflexivity|].
  apply repay_inv in R. destruct R as (r & Hr & _ & -> & ->).
  exists r. split; [exact Hr|].
  pose proof (repay_run_balance m _ _ r Hr) as Hb. lra.
Qed.

(** In exact arithmetic the balance that [payoff] computes for the loan
    after a mortgage, [outstanding -= (decrease - increase)] on what
    [repay] returned, is the balance that [repay] itself held in its local
    [outstanding] when it returned.  What separates the two in the program
    is rounding alone. *)
Theorem payoff_balance_is_repay_balance
    (m : mortgage) (rest : list mortgage) (self self' : Loan.loan)
    (start_ current : datetime) :
  Loan.payoff_body m rest self start_ = Ok (self', current) ->
  exists r,
    repay_run m (Loan.outstanding self) start_ = Ok r
    /\ Loan.outstanding self' == outstanding (r_locals r)
    /\ outstanding (r_locals r)
       == Loan.outstanding self - r_downpayment r
          + interests (r_locals r) - repayments (r_locals r).
Proof.
  intro H. apply payoff_body_inv in H. destruct H as (_ & r & Hr & Hb).
  exists r. split; [exact Hr|]. split; [exact Hb|].
  pose proof (repay_run_balance m _ _ r Hr). lra.
Qed.

Lemma payoff_balance_is_repay_balance_witness :
  exists self' current,
    Loan.payoff_body Cases.plain [] Cases.small_loan Cases.new_year
    = Ok (self', current)
    /\ exists r,
         repay_run Cases.plain (Loan.outstanding Cases.small_loan)
           Cases.new_year = Ok r
         /\ Loan.outstanding self' == outstanding (r_locals r)
         /\ outstanding (r_locals r)
            == Loan.outstanding Cases.small_loan - r_downpayment r
               + interests (r_locals r) - repayments (r_locals r).
Proof.
  eexists. eexists. split.
  - vm_compute. reflexivity.
  - eapply (payoff_balance_is_repay_balance Cases.plain [] Cases.small_loan).
    vm_compute. reflexivity.
Defined.

(** C1, in binary64, on Scenario A (100000 at 6% over 25 years, 700 a
    month).  [repay] brings its own balance to exactly 0 and leaves its
    loop on the 253rd payment date; the balance [payoff] computes from the
    totals returned is 7.2759576141834259e-11, which is positive: [payoff]
    does not stop, and a mortgage that follows in the list is used, which
    moves the end date of the loan from February to April 2041. *)
Theorem payoff_balance_drifts_from_repay_balance :
  exists r fin fin2,
    Binary64.Mortgage.repay_run Cases64.scenario_a 100000 Cases.new_year
    = Ok r
    /\ List.length (Binary64.Mortgage.r_periods r) = 253%nat
    /\ Binary64.Mortgage.outstanding (Binary64.Mortgage.r_locals r)
       = 0%float
    /\ Binary64.Loan.payoff
         (Binary64.Loan.init 100000 Cases.new_year [Cases64.scenario_a])
       = Ok fin
    /\ Binary64.Loan.outstanding fin = 0x1.4p-34%float
    /\ Binary64.gtb (Binary64.Loan.outstanding fin) 0 = true
    /\ Binary64.Loan.end_ fin = Some (mkdate 2041 2 1)
    /\ Binary64.Loan.payoff
         (Binary64.Loan.init 100000 Cases.new_year
            [Cases64.scenario_a; Cases64.scenario_a])
       = Ok fin2
    /\ Binary64.Loan.mortgages fin2 = []
    /\ Binary64.Loan.end_ fin2 = Some (mkdate 2041 4 1).
Proof.
  eexists. eexists. eexists.
  split; [vm_compute; reflexivity|].
  split; [vm_compute; reflexivity|].
  split; [vm_compute; reflexivity|].
  split; [vm_compute; reflexivity|].
  split; [vm_compute; reflexivity|].
  split; [vm_compute; reflexivity|].
  split; [vm_compute; reflexivity|].
  split; [vm_compute; reflexivity|].
  split; vm_compute; reflexivity.
Qed.

(** A term that is not positive: once the downpayment is resolved the loop
    has no date to run on, and the [return] reads a loop variable that was
    never bound. *)
Lemma repay_nonpositive_term (self : mortgage) (o dp : Q) (s : datetime) :
  (duration self <= 0)%Z ->
  calculate_downpayment self o = Ok dp ->
  repay self o s = Raise UnboundLocalError.
Proof.
  intros Hd Hdp. unfold repay, repay_run.
  change (calculate_downpayment (bind_start self o s) o)
    with (calculate_downpayment self o).
  rewrite Hdp. simpl bind. unfold repayment_duration. simpl start.
  simpl duration. rewrite (schedule_empty s (duration self) Hd).
  reflexivity.
Qed.

Lemma repay_nonpositive_term_raises (self : mortgage) (o : Q) (s : datetime) :
  (duration self <= 0)%Z -> exists e, repay self o s = Raise e.
Proof.
  intro Hd. destruct (calculate_downpayment self o) as [dp|e] eqn:E.
  - exists UnboundLocalError. exact (repay_nonpositive_term self o dp s Hd E).
  - exists e. unfold repay, repay_run.
    change (calculate_downpayment (bind_start self o s) o)
      with (calculate_downpayment self o).
    rewrite E. reflexivity.
Qed.

(** The half of [sanitize_percent] that works: a string that, stripped, ends
    in a percent sign gives the number before the sign, over 100. *)
Lemma sanitize_percent_string (s : string) (f : Q) :
  PyStr.last (PyStr.strip s) = Ok "%"%char ->
  PyStr.float (PyStr.drop_last (PyStr.strip s)) = Ok f ->
  sanitize_percent (Str s) = Ok (Num (f / 100)).
Proof.
  intros Hl Hf. unfold sanitize_percent. rewrite Hl. simpl. rewrite Hf.
  reflexivity.
Qed.

(** C2, at an [overpay] given as an amount: on the first anniversary, with
    50000 outstanding, the repayment computed is the whole 50000, the
    nominal 700 and a lump of 49300, where a lump of 1500 would make it
    2200. *)
Theorem flat_overpay_takes_whole_balance :
  exists paid,
    calculate_repayment (bind_start Cases.flat 100000 Cases.new_year)
      (mkdate 2021 1 1) 50000 = Ok paid
    /\ paid == 50000
    /\ ~ paid == 700 + 1500.
Proof.
  eexists. split; [vm_compute; reflexivity|].
  split; [reflexivity|]. intro H. vm_compute in H. discriminate.
Qed.

(** C6, on numbers: [sanitize_percent] raises [TypeError] on every number,
    it does not return it. *)
Theorem sanitize_percent_raises_on_number (q : Q) :
  sanitize_percent (Num q) = Raise TypeError.
Proof. reflexivity. Qed.

(** C7 as amended: constructing a mortgage never fails, whatever the
    parameters; they are stored as given.  A term that is not positive is
    found only by [repay], which raises. *)
Theorem init_never_rejects (rate : Q) (duration : Z) (repayment overpay : Q)
    (downpayment : value) :
  init rate duration repayment overpay downpayment
  = Ok (fresh rate duration repayment overpay downpayment)
  /\ ((duration <= 0)%Z ->
      forall o s,
      exists e,
        repay (fresh rate duration repayment overpay downpayment) o s
        = Raise e).
Proof.
  split; [reflexivity|]. intros Hd o s.
  apply repay_nonpositive_term_raises. exact Hd.
Qed.

Lemma init_never_rejects_witness :
  init (- (1)) (-1) (- (700)) 0 (Num 0)
  = Ok (fresh (- (1)) (-1) (- (700)) 0 (Num 0))
  /\ exists e,
       repay (fresh (- (1)) (-1) (- (700)) 0 (Num 0)) 100000 Cases.new_year
       = Raise e.
Proof.
  destruct (init_never_rejects (- (1)) (-1) (- (700)) 0 (Num 0)) as [Hi Hr].
  split; [exact Hi|]. apply Hr. lia.
Defined.

(** C7 as stated fails: a mortgage with a negative rate, a negative term
    and a negative repayment is constructed, and the term is found out when
    [repay] runs. *)
Lemma init_accepts_malformed :
  exists m,
    init (- (1)) (-1) (- (700)) 0 (Num 0) = Ok m
    /\ repay m 100000 Cases.new_year = Raise UnboundLocalError.
Proof. eexists. split; reflexivity. Qed.

(** C8 as amended: the interest is [outstanding * (rate / 12)], and it
    does not decrease in [outstanding] when the rate is not negative. *)
Theorem calculate_interest_monotone (self : mortgage) (o1 o2 : Q) :
  calculate_interest self o1 == o1 * (rate self / 12)
  /\ (0 <= rate self -> o1 <= o2 ->
      calculate_interest self o1 <= calculate_interest self o2).
Proof.
  split; [reflexivity|]. apply interest_mono.
Qed.

Lemma calculate_interest_monotone_witness :
  calculate_interest Cases.plain 1 == 1 * (rate Cases.plain / 12)
  /\ calculate_interest Cases.plain 1 <= calculate_interest Cases.plain 2.
Proof.
  destruct (calculate_interest_monotone Cases.plain 1 2) as (H1 & H2).
  split; [exact H1|]. apply H2; [simpl; lra | lra].
Defined.

(** C8 as stated fails at rate 0: the interest on 1 and on 2 is the same. *)
Lemma calculate_interest_flat_at_rate_zero :
  0 <= rate Cases.interest_free
  /\ 0 <= 1 /\ 1 < 2
  /\ ~ calculate_interest Cases.interest_free 1
       < calculate_interest Cases.interest_free 2.
Proof.
  split; [simpl; lra|]. split; [lra|]. split; [lra|].
  intro H. vm_compute in H. discriminate.
Qed.

(** In binary64 the interest is not strictly increasing at a positive rate
    either: at 6% the balances 110000.00000000001 and 110000.00000000003
    have the same interest, 550.00000000000011. *)
Lemma calculate_interest_flat_in_binary64 :
  PrimFloat.ltb 0x1.adb0000000001p+16 0x1.adb0000000002p+16 = true
  /\ Binary64.Mortgage.calculate_interest Cases64.scenario_a
       0x1.adb0000000001p+16
     = Binary64.Mortgage.calculate_interest Cases64.scenario_a
         0x1.adb0000000002p+16.
Proof. split; vm_compute; reflexivity. Qed.

(** From a date of the calendar and with a term of a year or more, [repay]
    enters its loop: the first iteration is dated a month after the start
    and finds the balance given less the downpayment. *)
Lemma repay_run_first (self : mortgage) (o : Q) (s : datetime) (r : run) :
  repay_run self o s = Ok r ->
  valid s = true -> (1 <= duration self)%Z ->
  exists p tr rest,
    r_periods r = p :: tr
    /\ repayment_duration (bind_start self o s)
       = Ok (map p_date (r_periods r) ++ rest)
    /\ period_ok (bind_start self o s) p
    /\ p_before p = o - r_downpayment r
    /\ p_date p = add_relativedelta s 0 1
    /\ date (r_locals r) = Some (p_date (List.last tr p)).
Proof.
  intros H Hv Hd. apply repay_run_inv in H.
  destruct H as (_ & _ & dates & Hdates & L).
  pose proof (repay_loop_periods _ _ _ _ _ L) as Hok.
  pose proof (repay_loop_dates _ _ _ _ _ L) as [[rest Hpre] Hfirst].
  assert (exists more, dates = add_relativedelta s 0 1 :: more) as [more Heq].
  { destruct (schedule_first s (duration self) Hv Hd) as [more Hsched].
    exists more. unfold repayment_duration in Hdates. simpl in Hdates.
    rewrite Hsched in Hdates. inversion Hdates. reflexivity. }
  destruct (r_periods r) as [|p tr].
  - destruct Hfirst as [Hnil _]. rewrite Heq in Hnil. discriminate.
  - exists p, tr, rest. destruct Hfirst as (Hb & _ & Hlast).
    split; [reflexivity|].
    split; [rewrite Hdates, Hpre; reflexivity|].
    split; [inversion Hok; assumption|].
    split; [exact Hb|].
    split; [|rewrite Hlast; f_equal; f_equal; destruct tr; reflexivity].
    rewrite Heq in Hpre. simpl in Hpre. inversion Hpre. reflexivity.
Qed.

(** C3 as amended: in every iteration of [repay] that finds a non-negative
    balance, with a rate, a monthly repayment and an [overpay] that are not
    negative, adding the interest does not lower the balance and the
    repayment does not raise it. *)
Theorem repay_period_monotone (self : mortgage) (o : Q) (s : datetime)
    (r : run) (p : period) :
  repay_run self o s = Ok r ->
  In p (r_periods r) ->
  0 <= rate self -> 0 <= repayment self -> 0 <= overpay self ->
  0 <= p_before p ->
  p_before p <= p_accrued p
  /\ p_after p <= p_accrued p.
Proof.
  intros H Hin Hr Hrep Hov Hb. apply repay_run_inv in H.
  destruct H as (_ & _ & dates & _ & L).
  pose proof (repay_loop_periods _ _ _ _ _ L) as Hok.
  rewrite Forall_forall in Hok. specialize (Hok p Hin).
  destruct Hok as (Hi & Hacc & Hstep).
  pose proof (interest_nonneg (bind_start self o s) (p_before p) Hr Hb) as Hi0.
  rewrite <- Hi in Hi0. rewrite Hacc.
  destruct (p_repayment p) as [paid|].
  - destruct Hstep as (Hpos & Hpaid & ->). rewrite Hacc in *.
    pose proof (calculate_repayment_ge (bind_start self o s) _ _ _ Hov Hpaid)
      as Hge.
    destruct (nominal_cases (bind_start self o s) (p_before p + p_interest p))
      as [[_ E]|[_ E]]; rewrite E in Hge; simpl in Hge; split; lra.
  - destruct Hstep as (Hneg & ->). rewrite Hacc in *. split; lra.
Qed.

Lemma repay_period_monotone_witness :
  exists r p,
    repay_run Cases.plain 2000 Cases.new_year = Ok r
    /\ In p (r_periods r)
    /\ p_before p == 1310
    /\ p_before p <= p_accrued p
    /\ p_after p <= p_accrued p.
Proof.
  eexists. eexists. split; [vm_compute; reflexivity|].
  split; [right; left; reflexivity|].
  split; [vm_compute; reflexivity|].
  eapply (repay_period_monotone Cases.plain 2000 Cases.new_year).
  - vm_compute. reflexivity.
  - right. left. reflexivity.
  - simpl. lra.
  - simpl. lra.
  - simpl. lra.
  - vm_compute. discriminate.
Defined.

(** C3 as stated fails.  At 12% a year on 100000 with 700 a month, the
    first iteration finds a balance of 100000 and leaves one above it; and
    with a negative monthly repayment the repayment step raises the
    balance. *)
Lemma repay_period_can_rise :
  (exists r p,
     repay_run Cases.costly 100000 Cases.new_year = Ok r
     /\ In p (r_periods r)
     /\ 0 <= rate Cases.costly /\ 0 <= p_before p
     /\ p_before p < p_after p)
  /\ (exists r p,
        repay_run Cases.drawing 1000 Cases.new_year = Ok r
        /\ In p (r_periods r)
        /\ 0 <= rate Cases.drawing /\ 0 <= p_before p
        /\ p_accrued p < p_after p).
Proof.
  split.
  - destruct (repay_run_ok Cases.costly 100000 Cases.new_year _ eq_refl)
      as (r & Hr & Hdp).
    destruct (repay_run_first _ _ _ _ Hr eq_refl ltac:(simpl; lia))
      as (p & tr & rest & Htr & _ & (Hi & Hacc & Hstep) & Hb & Hd & _).
    exists r, p. split; [exact Hr|]. split; [rewrite Htr; left; reflexivity|].
    split; [simpl; lra|].
    rewrite Hdp in Hb. rewrite Hb in Hi. rewrite Hb, Hi in Hacc.
    rewrite Hacc, Hd in Hstep. rewrite Hb.
    destruct (p_repayment p) as [paid|].
    + destruct Hstep as (_ & Hpaid & ->). vm_compute in Hpaid.
      inversion Hpaid; subst paid. split; vm_compute; [discriminate|reflexivity].
    + destruct Hstep as (Hneg & _). vm_compute in Hneg. exfalso. apply Hneg.
      reflexivity.
  - destruct (repay_run_ok Cases.drawing 1000 Cases.new_year _ eq_refl)
      as (r & Hr & Hdp).
    destruct (repay_run_first _ _ _ _ Hr eq_refl ltac:(simpl; lia))
      as (p & tr & rest & Htr & _ & (Hi & Hacc & Hstep) & Hb & Hd & _).
    exists r, p. split; [exact Hr|]. split; [rewrite Htr; left; reflexivity|].
    split; [simpl; lra|].
    rewrite Hdp in Hb. rewrite Hb in Hi. rewrite Hb, Hi in Hacc.
    rewrite Hacc, Hd in Hstep. rewrite Hb, Hacc.
    destruct (p_repayment p) as [paid|].
    + destruct Hstep as (_ & Hpaid & ->). vm_compute in Hpaid.
      inversion Hpaid; subst paid. split; vm_compute; [discriminate|reflexivity].
    + destruct Hstep as (Hneg & _). vm_compute in Hneg. exfalso. apply Hneg.
      reflexivity.
Qed.

(** In binary64 a repayment equal to the interest of the iteration can
    leave a balance above the one found: at 6%, on 131071.99999999801, the
    interest and the repayment are both 655.35999999999001 and the balance
    left is 131071.99999999802. *)
Lemma period_rises_by_rounding_in_binary64 :
  exists r p tr,
    Binary64.Mortgage.repay_run Cases64.level 0x1.fffffffffff77p+16
      Cases.new_year = Ok r
    /\ Binary64.Mortgage.r_periods r = p :: tr
    /\ Binary64.Mortgage.p_interest p
       = Binary64.Mortgage.repayment Cases64.level
    /\ Binary64.Mortgage.p_repayment p
       = Some (Binary64.Mortgage.repayment Cases64.level)
    /\ Binary64.Mortgage.p_before p = 0x1.fffffffffff77p+16%float
    /\ Binary64.Mortgage.p_after p = 0x1.fffffffffff78p+16%float
    /\ PrimFloat.ltb (Binary64.Mortgage.p_before p)
         (Binary64.Mortgage.p_after p) = true.
Proof.
  eexists. eexists. eexists.
  split; [vm_compute; reflexivity|].
  split; [reflexivity|].
  split; [vm_compute; reflexivity|].
  split; [vm_compute; reflexivity|].
  split; [vm_compute; reflexivity|].
  split; vm_compute; reflexivity.
Qed.








(** Scenario A in binary64: of the 300 payment dates of the term, the
    252nd finds 125.17421202681804, which is not above the repayment of
    700, and takes it all; the 253rd finds nothing and the loop leaves. *)
Lemma repay_pays_off_scenario_a_in_binary64 :
  exists r dates p,
    Binary64.Mortgage.repay_run Cases64.scenario_a 100000 Cases.new_year
    = Ok r
    /\ Binary64.Mortgage.repayment_duration (Binary64.Mortgage.r_self r)
       = Ok dates
    /\ List.length dates = 300%nat
    /\ List.length (Binary64.Mortgage.r_periods r) = 253%nat
    /\ List.nth_error (Binary64.Mortgage.r_periods r) 251 = Some p
    /\ Binary64.gtb (Binary64.Mortgage.p_accrued p) 0 = true
    /\ Binary64.gtb (Binary64.Mortgage.p_accrued p)
         (Binary64.Mortgage.repayment Cases64.scenario_a) = false
    /\ Binary64.Mortgage.p_after p = 0%float
    /\ Binary64.Mortgage.outstanding (Binary64.Mortgage.r_locals r)
       = 0%float.
Proof.
  eexists. eexists. eexists.
  split; [vm_compute; reflexivity|].
  split; [vm_compute; reflexivity|].
  split; [vm_compute; reflexivity|].
  split; [vm_compute; reflexivity|].
  split; [vm_compute; reflexivity|].
  split; [vm_compute; reflexivity|].
  split; [vm_compute; reflexivity|].
  split; vm_compute; reflexivity.
Qed.

(** A sum of repayments equal to the balance need not make a date that
    clears it: in binary64, without interest, twelve repayments of 0.1
    on a balance of 1.2 find 0.10000000000000003 on the twelfth date,
    above the repayment, and leave 2.7755575615628914e-17. *)
Lemma repay_leaves_a_remainder_in_binary64 :
  exists r dates p,
    Binary64.Mortgage.repay_run Cases64.dimes (12 / 10) Cases.new_year
    = Ok r
    /\ Binary64.Mortgage.repayment_duration (Binary64.Mortgage.r_self r)
       = Ok dates
    /\ List.length dates = 12%nat
    /\ List.length (Binary64.Mortgage.r_periods r) = 12%nat
    /\ List.nth_error (Binary64.Mortgage.r_periods r) 11 = Some p
    /\ Binary64.gtb (Binary64.Mortgage.p_accrued p)
         (Binary64.Mortgage.repayment Cases64.dimes) = true
    /\ Binary64.Mortgage.outstanding (Binary64.Mortgage.r_locals r)
       = 0x1p-55%float
    /\ Binary64.gtb
         (Binary64.Mortgage.outstanding (Binary64.Mortgage.r_locals r)) 0
       = true.
Proof.
  eexists. eexists. eexists.
  split; [vm_compute; reflexivity|].
  split; [vm_compute; reflexivity|].
  split; [vm_compute; reflexivity|].
  split; [vm_compute; reflexivity|].
  split; [vm_compute; reflexivity|].
  split; [vm_compute; reflexivity|].
  split; vm_compute; reflexivity.
Qed.


(** The state in which the loop of [payoff] ends is the state after one of
    the mortgages. *)
Lemma payoff_loop_after (ms : list mortgage) :
  forall (self fin : Loan.loan) (start_ : datetime),
    Loan.payoff_loop ms self start_ = Ok fin ->
    ms = [] /\ fin = self \/ Loan.after_instrument ms self start_ fin.
Proof.
  induction ms as [|m rest IH]; intros self fin start_ H.
  - left. inversion H. split; reflexivity.
  - right. simpl in H.
    destruct (Loan.payoff_body m rest self start_) as [[self' current]|] eqn:B;
      [|discriminate].
    simpl in H. destruct (Qgtb (Loan.outstanding self') 0) eqn:E; simpl in H.
    + destruct (IH _ _ _ H) as [[-> ->]|Hafter].
      * eapply Loan.after_first. exact B.
      * eapply Loan.after_next; eassumption.
    + inversion H; subst. eapply Loan.after_first. exact B.
Qed.




(** The sign that [sign_magnitude] returns is 1 or -1. *)
Lemma sign_magnitude_sign (v : value) (sign : Q) (magnitude : value) :
  sign_magnitude v = Ok (sign, magnitude) -> sign = 1 \/ sign = - (1).
Proof.
  destruct v as [q|s]; simpl.
  - intro H. inversion H. destruct (Qgtb 0 q); [right|left]; reflexivity.
  - destruct (PyStr.first s) as [c|]; [|discriminate]. simpl.
    destruct (Ascii.eqb c "+" || Ascii.eqb c "-")%bool; intro H; inversion H.
    + destruct (Ascii.eqb c "-"); [right|left]; reflexivity.
    + left. reflexivity.
Qed.




(** Scenario B of the specification: a downpayment of ["10%"] on 100000 is
    resolved to 10000, and the first iteration finds 90000. *)
Lemma downpayment_of_a_tenth :
  exists r p tr,
    repay_run Cases.tenth 100000 Cases.new_year = Ok r
    /\ r_downpayment r == 10000
    /\ r_periods r = p :: tr
    /\ p_before p == 90000.
Proof.
  destruct (repay_run_ok Cases.tenth 100000 Cases.new_year _ eq_refl)
    as (r & Hr & Hdp).
  destruct (repay_run_first _ _ _ _ Hr eq_refl ltac:(simpl; lia))
    as (p & tr & _ & Htr & _ & _ & Hb & _).
  exists r, p, tr. split; [exact Hr|]. rewrite Hb, Hdp.
  split; [reflexivity|]. split; [exact Htr | reflexivity].
Qed.

(** C10: [repay] returns only for a term of a year or more.  For a term
    that is not positive the schedule is empty and the call raises (at its
    [return], once the downpayment is resolved); whenever it returns, the
    iterations made are those of the first dates of the schedule, there is
    at least one, and the date returned is the date of the last; and for a
    term of a year or more, from a start in the calendar and with a
    downpayment that resolves, it does return. *)
Theorem repay_returns_iff_positive_term (self : mortgage) (o : Q)
    (s : datetime) :
  ((duration self <= 0)%Z ->
   repayment_duration (bind_start self o s) = Ok []
   /\ (exists e, repay self o s = Raise e)
   /\ (forall dp,
         calculate_downpayment self o = Ok dp ->
         repay self o s = Raise UnboundLocalError))
  /\ (forall i rp d,
        repay self o s = Ok (i, rp, d) ->
        (1 <= duration self)%Z
        /\ exists r p tr rest,
             repay_run self o s = Ok r
             /\ r_periods r = p :: tr
             /\ repayment_duration (bind_start self o s)
                = Ok (map p_date (r_periods r) ++ rest)
             /\ d = p_date (List.last tr p))
  /\ ((1 <= duration self)%Z ->
      valid s = true ->
      forall dp,
        calculate_downpayment self o = Ok dp ->
        exists r,
          repay_run self o s = Ok r
          /\ exists d,
               repay self o s
               = Ok (interests (r_locals r), repayments (r_locals r) + dp, d)).
Proof.
  split; [|split].
  - intro Hd. split; [|split].
    + change (repayment_duration (bind_start self o s))
        with (Ok (rrule_monthly (add_relativedelta s 0 1)
                    (add_relativedelta s (duration self) 0))).
      rewrite (schedule_empty s (duration self) Hd). reflexivity.
    + exact (repay_nonpositive_term_raises self o s Hd).
    + intros dp Hdp. exact (repay_nonpositive_term self o dp s Hd Hdp).
  - intros i rp d H. split.
    + destruct (Z_le_gt_dec (duration self) 0) as [Hd|Hd]; [|lia].
      destruct (repay_nonpositive_term_raises self o s Hd) as [e He].
      rewrite He in H. discriminate.
    + apply repay_inv in H. destruct H as (r & Hr & Hd & _ & _).
      pose proof (repay_run_inv _ _ _ _ Hr) as (_ & _ & dates & Hdates & L).
      apply repay_loop_dates in L. destruct L as [[rest Hpre] Hfirst].
      destruct (r_periods r) as [|p tr] eqn:Etr.
      * destruct Hfirst as [_ Hfin]. rewrite Hfin in Hd. discriminate.
      * destruct Hfirst as (_ & _ & Hlast). exists r, p, tr, rest.
        split; [exact Hr|]. split; [exact Etr|].
        split; [rewrite Hdates, Hpre, Etr; reflexivity|].
        rewrite Hlast in Hd. inversion Hd. destruct tr; reflexivity.
  - intros Hd Hv dp Hdp.
    destruct (repay_run_ok self o s dp Hdp) as (r & Hr & Hrdp).
    destruct (repay_run_first _ _ _ _ Hr Hv Hd)
      as (p & tr & _ & _ & _ & _ & _ & _ & Hdate).
    exists r. split; [exact Hr|]. exists (p_date (List.last tr p)).
    rewrite (repay_of_run _ _ _ _ Hr), Hdate, Hrdp. reflexivity.
Qed.

Lemma repay_returns_iff_positive_term_witness :
  (repayment_duration
     (bind_start (fresh (6 # 100) 0 700 0 (Num 0)) 500 Cases.new_year)
   = Ok []
   /\ repay (fresh (6 # 100) 0 700 0 (Num 0)) 500 Cases.new_year
      = Raise UnboundLocalError)
  /\ (exists r p tr rest,
        repay_run Cases.plain 500 Cases.new_year = Ok r
        /\ r_periods r = p :: tr
        /\ repayment_duration (bind_start Cases.plain 500 Cases.new_year)
           = Ok (map p_date (r_periods r) ++ rest)
        /\ mkdate 2020 3 1 = p_date (List.last tr p))
  /\ exists r,
       repay_run Cases.plain 500 Cases.new_year = Ok r
       /\ exists d,
            repay Cases.plain 500 Cases.new_year
            = Ok (interests (r_locals r), repayments (r_locals r) + 0 * 1, d).
Proof.
  split; [|split].
  - destruct (repay_returns_iff_positive_term
                (fresh (6 # 100) 0 700 0 (Num 0)) 500 Cases.new_year)
      as (H & _ & _).
    destruct H as (Hs & _ & Hr); [simpl; lia|].
    split; [exact Hs|]. apply (Hr (0 * 1)). reflexivity.
  - destruct (repay_returns_iff_positive_term Cases.plain 500 Cases.new_year)
      as (_ & H & _).
    eapply H. vm_compute. reflexivity.
  - destruct (repay_returns_iff_positive_term Cases.plain 500 Cases.new_year)
      as (_ & _ & H).
    apply H; [simpl; lia | reflexivity | reflexivity].
Defined.

End Specification.

(** * Further properties of the code *)

(** ** common.py *)

Section CommonProperties.

Import Common Notions.
Local Open Scope Q_scope.

(** X1: for a number [sign_magnitude] returns a sign that is 1 or -1, -1
    exactly for a negative number, and a magnitude that is not negative;
    sign times magnitude gives the number back. *)
Theorem sign_magnitude_number (q : Q) :
  exists sign m,
    sign_magnitude (Num q) = Ok (sign, Num m)
    /\ (sign = 1 \/ sign = - (1))
    /\ (sign = - (1) <-> q < 0)
    /\ 0 <= m
    /\ sign * m == q.
Proof.
  simpl. destruct (Qgtb 0 q) eqn:E.
  - apply Qgtb_true in E. exists (- (1)), (Qabs q).
    split; [reflexivity|]. split; [right; reflexivity|].
    split; [split; [intros _; exact E | reflexivity]|].
    split; [apply Qabs_nonneg|]. rewrite Qabs_neg by lra. ring.
  - apply Qgtb_false in E. exists 1, (Qabs q).
    split; [reflexivity|]. split; [left; reflexivity|].
    split; [split; [discriminate | intro; lra]|].
    split; [apply Qabs_nonneg|]. rewrite Qabs_pos by lra. ring.
Qed.

(** X2: for a string [sign_magnitude] raises [IndexError] on the empty
    string and on no other; it takes one leading [+] or [-] off, with sign
    -1 for [-], and returns any other string whole with sign 1.  The
    magnitude is a string again, not a number. *)
Theorem sign_magnitude_string (s : string) :
  match s with
  | EmptyString => sign_magnitude (Str s) = Raise IndexError
  | String c r =>
      exists sign,
        (c = "-"%char /\ sign = - (1)
         /\ sign_magnitude (Str s) = Ok (sign, Str r))
        \/ (c = "+"%char /\ sign = 1
            /\ sign_magnitude (Str s) = Ok (sign, Str r))
        \/ (c <> "-"%char /\ c <> "+"%char /\ sign = 1
            /\ sign_magnitude (Str s) = Ok (sign, Str s))
  end.
Proof.
  destruct s as [|c r]; [reflexivity|]. simpl.
  destruct (Ascii.eqb_spec c "+") as [Hp|Hp].
  - subst c. exists 1. right. left. repeat split.
  - destruct (Ascii.eqb_spec c "-") as [Hm|Hm].
    + subst c. exists (- (1)). left. repeat split.
    + exists 1. right. right. repeat split; assumption.
Qed.

Lemma lstrip_all_space (s : string) :
  all_space s = true -> PyStr.lstrip s = EmptyString.
Proof.
  induction s as [|c r IH]; [reflexivity|]. simpl.
  destruct (PyStr.is_space c); [exact IH | discriminate].
Qed.

(** X3: on an empty string, or one of white space only, [sanitize_percent]
    raises [IndexError]. *)
Theorem sanitize_percent_blank (s : string) :
  all_space s = true -> sanitize_percent (Str s) = Raise IndexError.
Proof.
  intro H. unfold sanitize_percent, PyStr.strip.
  rewrite (lstrip_all_space s H). reflexivity.
Qed.

Lemma sanitize_percent_blank_witness :
  sanitize_percent (Str "  ") = Raise IndexError.
Proof. apply sanitize_percent_blank. reflexivity. Defined.

End CommonProperties.

(** ** mortgage.py: one downpayment, one repayment *)

Section MortgageProperties.

Import Common Dateutil Mortgage Notions.
Local Open Scope Q_scope.

(** How [calculate_downpayment] came to an amount: from a number, or from
    a magnitude ending in a percent sign that [sanitize_percent] turned
    into a fraction. *)
Lemma calculate_downpayment_inv (self : mortgage) (o dp : Q) :
  calculate_downpayment self o = Ok dp ->
  (exists sign q,
     sign_magnitude (downpayment self) = Ok (sign, Num q)
     /\ dp = q * sign)
  \/ (exists sign m f,
        sign_magnitude (downpayment self) = Ok (sign, Str m)
        /\ PyStr.last m = Ok "%"%char
        /\ sanitize_percent (Str m) = Ok (Num f)
        /\ dp = f * o * sign).
Proof.
  unfold calculate_downpayment.
  destruct (sign_magnitude (downpayment self)) as [[sign mag]|] eqn:Esm;
    [|discriminate].
  cbn [bind]. destruct mag as [q|m]; cbn [bind mul_float].
  - intro H. inversion H. left. exists sign, q. split; reflexivity.
  - destruct (PyStr.last m) as [l|] eqn:El; [|discriminate]. cbn [bind].
    destruct (Ascii.eqb_spec l "%") as [->|Hl]; [|discriminate].
    destruct (sanitize_percent (Str m)) as [[f|t]|] eqn:Ef;
      cbn [bind mul_float]; try discriminate.
    intro H. inversion H. right. exists sign, m, f.
    split; [reflexivity|]. split; [exact El|]. split; [exact Ef|reflexivity].
Qed.

(** X4: whether [calculate_downpayment] returns does not depend on the
    balance it is given; a downpayment stored as a number is resolved to
    the same amount for every balance, one stored as a string to the
    product of one fraction, the balance and one sign, the same fraction
    and sign for every balance. *)
Theorem calculate_downpayment_scales (self : mortgage) (o1 o2 d1 : Q) :
  calculate_downpayment self o1 = Ok d1 ->
  exists d2,
    calculate_downpayment self o2 = Ok d2
    /\ match downpayment self with
       | Num _ => d1 = d2
       | Str _ =>
           exists f sign,
             (sign = 1 \/ sign = - (1))
             /\ d1 = f * o1 * sign /\ d2 = f * o2 * sign
       end.
Proof.
  intro H. apply calculate_downpayment_inv in H.
  destruct H as [(sign & q & Hs & ->)|(sign & m & f & Hs & Hl & Hf & ->)].
  - exists (q * sign). unfold calculate_downpayment. rewrite Hs.
    split; [reflexivity|].
    destruct (downpayment self) as [q'|s]; [reflexivity|].
    simpl in Hs. destruct (PyStr.first s); [|discriminate]. simpl in Hs.
    destruct (Ascii.eqb _ "+" || Ascii.eqb _ "-")%bool; discriminate.
  - exists (f * o2 * sign). unfold calculate_downpayment. rewrite Hs.
    cbn [bind]. rewrite Hl. cbn [bind Ascii.eqb Bool.eqb]. rewrite Hf.
    split; [reflexivity|].
    destruct (downpayment self) as [q'|s]; [discriminate|].
    exists f, sign. split; [|split; reflexivity].
    pose proof (sign_magnitude_sign _ _ _ Hs) as Hsign. exact Hsign.
Qed.

Lemma calculate_downpayment_scales_witness :
  exists d2,
    calculate_downpayment Cases.tenth 300 = Ok d2
    /\ exists f sign,
         (sign = 1 \/ sign = - (1))
         /\ (10 # 1) / 100 * 100000 * 1 = f * 100000 * sign
         /\ d2 = f * 300 * sign.
Proof.
  apply (calculate_downpayment_scales Cases.tenth 100000 300). reflexivity.
Defined.

(** The amounts themselves are rounded: in binary64, 15% of 123456 and of
    99999 are 18518.399999999998 and 14999.849999999999, which are not in
    the proportion of the balances. *)
Lemma calculate_downpayment_rounds_in_binary64 :
  exists d1 d2,
    Binary64.Mortgage.calculate_downpayment Cases64.fifteen 123456 = Ok d1
    /\ Binary64.Mortgage.calculate_downpayment Cases64.fifteen 99999
       = Ok d2
    /\ PrimFloat.ltb (d1 * 99999) (d2 * 123456) = true.
Proof.
  eexists. eexists. split; [vm_compute; reflexivity|].
  split; vm_compute; reflexivity.
Qed.

Lemma first_rev_append_cons (c : ascii) (r acc1 acc2 : string) :
  PyStr.first (PyStr.rev_append (String c r) acc1)
  = PyStr.first (PyStr.rev_append (String c r) acc2).
Proof.
  revert c acc1 acc2. induction r as [|d r IH]; intros c acc1 acc2.
  - reflexivity.
  - simpl. apply (IH d).
Qed.

(** The last character of a string is the last of what follows its first,
    when something follows. *)
Lemma last_drop_first (c d : ascii) (r : string) :
  PyStr.last (String c (String d r)) = PyStr.last (String d r).
Proof.
  change (PyStr.first (PyStr.rev_append (String d r) (String c EmptyString))
          = PyStr.first (PyStr.rev_append (String d r) EmptyString)).
  apply first_rev_append_cons.
Qed.

(** X5: a downpayment stored as a string is resolved only when the string
    ends in a percent sign: for any other string, a number in quotes
    included, [calculate_downpayment] raises. *)
Theorem string_downpayment_needs_percent (self : mortgage) (s : string)
    (o dp : Q) :
  downpayment self = Str s ->
  calculate_downpayment self o = Ok dp ->
  PyStr.last s = Ok "%"%char.
Proof.
  intros Hs H. apply calculate_downpayment_inv in H. rewrite Hs in H.
  destruct H as [(sign & q & Hsm & _)|(sign & m & f & Hsm & Hl & _)];
    simpl in Hsm.
  - destruct (PyStr.first s); [|discriminate]. simpl in Hsm.
    destruct (Ascii.eqb _ "+" || Ascii.eqb _ "-")%bool; discriminate.
  - destruct s as [|c r]; [discriminate|]. simpl in Hsm.
    destruct (Ascii.eqb c "+" || Ascii.eqb c "-")%bool;
      inversion Hsm; subst m; [|exact Hl].
    simpl in Hl. destruct r as [|d r]; [discriminate|].
    rewrite last_drop_first. exact Hl.
Qed.

Lemma string_downpayment_needs_percent_witness :
  PyStr.last "10%" = Ok "%"%char.
Proof.
  apply (string_downpayment_needs_percent Cases.tenth "10%" 100000
           ((10 # 1) / 100 * 100000 * 1)); reflexivity.
Defined.

(** X6: on a balance that is not above the monthly repayment,
    [calculate_repayment] returns the balance itself, whatever the date
    and the overpay: the last repayment takes the balance to zero, not
    below. *)
Theorem last_repayment_is_the_balance (self : mortgage) (d : datetime)
    (o paid : Q) :
  o <= repayment self ->
  calculate_repayment self d o = Ok paid ->
  paid == o.
Proof.
  intros Ho. unfold calculate_repayment, nominal.
  apply Qgtb_false in Ho. rewrite Ho.
  destruct (truthy (overpay self)).
  - unfold calculate_overpay. destruct (start self); [|discriminate].
    destruct (mem d _); simpl.
    + destruct (Qgtb (o - o) ((o - o) * overpay self));
        intro H; inversion H; ring.
    + intro H. inversion H. ring.
  - intro H. inversion H. reflexivity.
Qed.

Lemma last_repayment_is_the_balance_witness :
  exists paid,
    calculate_repayment (bind_start Cases.flat 100000 Cases.new_year)
      (mkdate 2021 1 1) 650 = Ok paid
    /\ paid == 650.
Proof.
  eexists. split; [vm_compute; reflexivity|].
  apply (last_repayment_is_the_balance
           (bind_start Cases.flat 100000 Cases.new_year) (mkdate 2021 1 1)).
  - simpl. lra.
  - vm_compute. reflexivity.
Defined.

(** X7: with a term of one year or less the list of anniversaries is
    empty, so once the start is bound no repayment holds a lump: every
    repayment is the nominal one, whatever the overpay. *)
Theorem no_overpay_within_one_year (self : mortgage) (s d : datetime)
    (o : Q) :
  (duration self <= 1)%Z ->
  start self = Some s ->
  exists paid,
    calculate_repayment self d o = Ok paid /\ paid == nominal self o.
Proof.
  intros Hd Hs. unfold calculate_repayment, calculate_overpay. rewrite Hs.
  unfold rrule_yearly.
  replace (Z.to_nat (duration self - 1)) with 0%nat by lia. simpl.
  destruct (truthy (overpay self)); eexists; split;
    try reflexivity; ring.
Qed.

Lemma no_overpay_within_one_year_witness :
  exists paid,
    calculate_repayment
      (bind_start (fresh (6 # 100) 1 700 (1 # 10) (Num 0)) 100000
         Cases.new_year)
      (mkdate 2021 1 1) 50000 = Ok paid
    /\ paid
       == nominal
            (bind_start (fresh (6 # 100) 1 700 (1 # 10) (Num 0)) 100000
               Cases.new_year) 50000.
Proof.
  apply (no_overpay_within_one_year _ Cases.new_year);
    [simpl; lia | reflexivity].
Defined.

End MortgageProperties.

(** ** mortgage.py: a whole run of [repay] *)

Section RepayProperties.

Import Common Dateutil Mortgage Notions.
Local Open Scope Q_scope.

Lemma repay_loop_totals (self : mortgage) (dates : list datetime) :
  forall st fin tr,
    repay_loop self dates st = Ok (fin, tr) ->
    interests fin == interests st + total_interest tr
    /\ repayments fin == repayments st + total_paid tr.
Proof.
  induction dates as [|d rest IH]; intros st fin tr H.
  - inversion H; subst. simpl. split; ring.
  - apply repay_loop_cons in H.
    destruct H as [(_ & -> & ->) | (_ & paid & tr' & _ & Hl & ->)].
    + simpl. split; ring.
    + apply IH in Hl. simpl in Hl. destruct Hl as [Hi Hp].
      simpl. rewrite Hi, Hp. split; ring.
Qed.

(** X8: what [repay] returns as interest is the sum of the interest of the
    iterations it made, and what it returns as repaid is the sum of their
    repayments plus the downpayment. *)
Theorem repay_returns_the_totals (self : mortgage) (o : Q) (s : datetime)
    (i rp : Q) (d : datetime) :
  repay self o s = Ok (i, rp, d) ->
  exists r,
    repay_run self o s = Ok r
    /\ i == total_interest (r_periods r)
    /\ rp == total_paid (r_periods r) + r_downpayment r.
Proof.
  intro H. apply repay_inv in H. destruct H as (r & Hr & _ & -> & ->).
  exists r. split; [exact Hr|]. apply repay_run_inv in Hr.
  destruct Hr as (_ & _ & dates & _ & L). apply repay_loop_totals in L.
  simpl in L. destruct L as [Hi Hp]. rewrite Hi, Hp. split; ring.
Qed.

Lemma repay_returns_the_totals_witness :
  exists r,
    repay_run Cases.plain 500 Cases.new_year = Ok r
    /\ 0 + 500 * ((6 # 100) / 12)
         + (500 + 500 * ((6 # 100) / 12)
            - (500 + 500 * ((6 # 100) / 12))) * ((6 # 100) / 12)
       == total_interest (r_periods r)
    /\ 0 + (500 + 500 * ((6 # 100) / 12)) + 0 * 1
       == total_paid (r_periods r) + r_downpayment r.
Proof.
  apply (repay_returns_the_totals Cases.plain 500 Cases.new_year _ _
           (mkdate 2020 3 1)).
  reflexivity.
Defined.

Lemma repay_loop_nonneg (self : mortgage) (dates : list datetime) :
  0 <= rate self ->
  forall st fin tr,
    repay_loop self dates st = Ok (fin, tr) ->
    0 <= outstanding st ->
    0 <= outstanding fin
    /\ interests st <= interests fin
    /\ Forall (fun p => 0 <= p_interest p /\ 0 <= p_after p) tr.
Proof.
  intro Hr. induction dates as [|d rest IH]; intros st fin tr H Hb.
  - inversion H; subst. split; [exact Hb|]. split; [lra | constructor].
  - apply repay_loop_cons in H. cbv zeta in H.
    pose proof (interest_nonneg self (outstanding st) Hr Hb) as Hi.
    unfold after_leaving, after_paying, left_at, paid_at in H.
    remember (calculate_interest self (outstanding st)) as i eqn:Ei.
    destruct H as [(Hle & -> & ->) | (Hlt & paid & tr' & Hp & Hl & ->)].
    + simpl. split; [lra|]. split; [lra|].
      constructor; [simpl; split; lra | constructor].
    + pose proof (calculate_repayment_le self d _ paid
                    (Qlt_le_weak _ _ Hlt) Hp) as Hpaid.
      apply IH in Hl; simpl in *; [|lra].
      destruct Hl as (Hfin & Hint & Hall).
      split; [exact Hfin|]. split; [lra|].
      constructor; [simpl; split; lra | exact Hall].
Qed.

(** X9: from a balance after the downpayment that is not negative, at a
    rate that is not negative and with an [overpay] of at most a half,
    [repay] never takes the balance below zero, whatever the repayment is:
    every iteration adds an interest that is not negative and leaves a
    balance that is not negative.  (A lump of at most half of what is left
    after the monthly repayment stays, rounded, within the balance; the
    totals that [repay] returns are sums that round, and are not compared
    here.) *)
Theorem repay_never_overpays (self : mortgage) (o : Q) (s : datetime)
    (r : run) :
  repay_run self o s = Ok r ->
  0 <= rate self ->
  overpay self <= 1 # 2 ->
  0 <= o - r_downpayment r ->
  0 <= outstanding (r_locals r)
  /\ 0 <= interests (r_locals r)
  /\ Forall (fun p => 0 <= p_interest p /\ 0 <= p_after p) (r_periods r).
Proof.
  intros H Hr _ Hb.
  apply repay_run_inv in H. destruct H as (_ & _ & dates & _ & L).
  apply (repay_loop_nonneg (bind_start self o s) dates Hr) in L;
    [|exact Hb].
  simpl in L. exact L.
Qed.

Lemma repay_never_overpays_witness :
  exists r,
    repay_run Cases.plain 2000 Cases.new_year = Ok r
    /\ List.length (r_periods r) = 4%nat
    /\ 0 <= outstanding (r_locals r)
    /\ 0 <= interests (r_locals r)
    /\ Forall (fun p => 0 <= p_interest p /\ 0 <= p_after p) (r_periods r).
Proof.
  eexists. split; [vm_compute; reflexivity|].
  split; [reflexivity|].
  eapply (repay_never_overpays Cases.plain 2000 Cases.new_year).
  - vm_compute. reflexivity.
  - simpl. lra.
  - simpl. lra.
  - vm_compute. discriminate.
Defined.

(** The totals returned are rounded sums: in binary64, on 100000 at 6%
    over 25 years with 650 a month, the amount repaid that [repay] returns
    is above the balance plus the interest it returns, and the balance
    that [payoff] makes of them is negative. *)
Lemma repay_totals_round_in_binary64 :
  exists i rp d fin,
    Binary64.Mortgage.repay Cases64.scenario_650 100000 Cases.new_year
    = Ok (i, rp, d)
    /\ PrimFloat.ltb (100000 + i) rp = true
    /\ Binary64.Loan.payoff
         (Binary64.Loan.init 100000 Cases.new_year [Cases64.scenario_650])
       = Ok fin
    /\ PrimFloat.ltb (Binary64.Loan.outstanding fin) 0 = true.
Proof.
  eexists. eexists. eexists. eexists.
  split; [vm_compute; reflexivity|].
  split; [vm_compute; reflexivity|].
  split; vm_compute; reflexivity.
Qed.

Lemma repay_loop_shape (self : mortgage) (dates : list datetime) :
  forall st fin tr,
    repay_loop self dates st = Ok (fin, tr) ->
    forallb repaid_in (removelast tr) = true
    /\ (List.length tr = List.length dates
        \/ exists tr' p,
             tr = tr' ++ [p] /\ p_repayment p = None /\ p_accrued p <= 0).
Proof.
  induction dates as [|d rest IH]; intros st fin tr H.
  - inversion H; subst. split; [reflexivity | left; reflexivity].
  - apply repay_loop_cons in H.
    destruct H as [(Hle & _ & ->) | (_ & paid & tr' & _ & Hl & ->)].
    + split; [reflexivity|]. right. exists [], (left_at self d st).
      split; [reflexivity|]. split; [reflexivity | exact Hle].
    + apply IH in Hl. destruct Hl as [Hall Hend]. split.
      * destruct tr' as [|q tr'']; [reflexivity|].
        change (removelast (paid_at self d st paid :: q :: tr''))
          with (paid_at self d st paid :: removelast (q :: tr'')).
        simpl forallb. exact Hall.
      * destruct Hend as [Hlen|(t & p & -> & Hp)].
        -- left. simpl. rewrite Hlen. reflexivity.
        -- right. exists (paid_at self d st paid :: t), p.
           split; [reflexivity | exact Hp].
Qed.

(** X10: the loop of [repay] goes through the payment dates in order and
    makes a repayment in every iteration but, possibly, the last.  It
    stops before the dates are used up only in an iteration that finds a
    balance, interest added, that is not positive; that iteration makes no
    repayment, and its date, the payment date after the one that took the
    balance to zero, is the one [repay] returns. *)
Theorem repay_stops_early_only_when_paid (self : mortgage) (o : Q)
    (s : datetime) (r : run) (dates : list datetime) :
  repay_run self o s = Ok r ->
  repayment_duration (r_self r) = Ok dates ->
  forallb repaid_in (removelast (r_periods r)) = true
  /\ (exists rest, dates = map p_date (r_periods r) ++ rest)
  /\ ((List.length (r_periods r) < List.length dates)%nat ->
      exists tr p,
        r_periods r = tr ++ [p]
        /\ p_repayment p = None
        /\ p_accrued p <= 0
        /\ date (r_locals r) = Some (p_date p)).
Proof.
  intros H Hdates. apply repay_run_inv in H.
  destruct H as (Hself & _ & dates' & Hdates' & L).
  rewrite Hself, Hdates' in Hdates. inversion Hdates; subst dates'.
  pose proof (repay_loop_shape _ _ _ _ _ L) as [Hall Hend].
  pose proof (repay_loop_dates _ _ _ _ _ L) as [Hpre Hlast].
  split; [exact Hall|]. split; [exact Hpre|]. intro Hlt.
  destruct Hend as [Hlen|(tr & p & Htr & Hnone & Hacc)]; [lia|].
  exists tr, p. split; [exact Htr|]. split; [exact Hnone|].
  split; [exact Hacc|]. rewrite Htr in Hlast.
  destruct (tr ++ [p]) as [|q l] eqn:E.
  - destruct tr; discriminate.
  - destruct Hlast as (_ & _ & ->). f_equal. f_equal.
    rewrite <- E. apply last_last.
Qed.

Lemma repay_stops_early_only_when_paid_witness :
  exists r dates,
    repay_run Cases.plain 500 Cases.new_year = Ok r
    /\ repayment_duration (r_self r) = Ok dates
    /\ forallb repaid_in (removelast (r_periods r)) = true
    /\ (exists rest, dates = map p_date (r_periods r) ++ rest)
    /\ ((List.length (r_periods r) < List.length dates)%nat ->
        exists tr p,
          r_periods r = tr ++ [p]
          /\ p_repayment p = None
          /\ p_accrued p <= 0
          /\ date (r_locals r) = Some (p_date p)).
Proof.
  eexists. eexists. split; [vm_compute; reflexivity|].
  split; [vm_compute; reflexivity|].
  apply (repay_stops_early_only_when_paid Cases.plain 500 Cases.new_year);
    vm_compute; reflexivity.
Defined.

(** X11: when the downpayment covers the balance, at a rate that is not
    negative, [repay] makes one iteration and no repayment: it returns, for
    a term of a year or more from a start in the calendar, the date a month
    after the start, the downpayment as the amount repaid, and as interest
    the rate applied to what was paid over the balance, which is not
    positive. *)
Theorem repay_when_downpayment_covers (self : mortgage) (o dp : Q)
    (s : datetime) :
  valid s = true ->
  (1 <= duration self)%Z ->
  0 <= rate self ->
  calculate_downpayment self o = Ok dp ->
  o <= dp ->
  exists i rp,
    repay self o s = Ok (i, rp, add_relativedelta s 0 1)
    /\ i == calculate_interest self (o - dp)
    /\ i <= 0
    /\ rp == dp.
Proof.
  intros Hv Hd Hr Hdp Hcov.
  destruct (repay_run_ok self o s dp Hdp) as (r & Hrun & Hrdp).
  destruct (repay_run_first _ _ _ _ Hrun Hv Hd)
    as (p & tr & _ & Htr & _ & (Hi & Hacc & Hstep) & Hb & Hdate & Hlast).
  pose proof (repay_run_inv _ _ _ _ Hrun) as (_ & _ & dates & _ & L).
  pose proof (repay_loop_shape _ _ _ _ _ L) as [Hall _].
  pose proof (repay_loop_totals _ _ _ _ _ L) as [Hti Htp].
  rewrite Hrdp in Hb.
  assert (calculate_interest self (o - dp) <= 0) as Hneg
    by (apply interest_nonpos; [exact Hr | lra]).
  change (calculate_interest (bind_start self o s) (p_before p))
    with (calculate_interest self (p_before p)) in Hi.
  rewrite Hb in Hi.
  destruct (p_repayment p) as [paid|] eqn:Ep.
  - destruct Hstep as (Hpos & _). rewrite Hacc, Hb, Hi in Hpos. lra.
  - assert (tr = []) as ->.
    { destruct tr as [|q tr]; [reflexivity|]. rewrite Htr in Hall.
      change (removelast (p :: q :: tr)) with (p :: removelast (q :: tr))
        in Hall.
      simpl in Hall. unfold repaid_in in Hall. rewrite Ep in Hall.
      discriminate. }
    rewrite Htr in Hti, Htp. simpl in Hti, Htp. rewrite Ep in Htp.
    simpl in Hlast. rewrite Hdate in Hlast.
    eexists. eexists. split.
    + rewrite (repay_of_run _ _ _ _ Hrun), Hlast. reflexivity.
    + rewrite Hti, Htp, Hi, Hrdp. split; [ring|].
      split; [|ring].
      assert (0 + (calculate_interest self (o - dp) + 0)
              == calculate_interest self (o - dp)) as -> by ring.
      exact Hneg.
Qed.

Lemma repay_when_downpayment_covers_witness :
  exists i rp,
    repay (fresh (6 # 100) 1 700 0 (Str "100%")) 500 Cases.new_year
    = Ok (i, rp, add_relativedelta Cases.new_year 0 1)
    /\ i == calculate_interest (fresh (6 # 100) 1 700 0 (Str "100%"))
              (500 - (100 # 1) / 100 * 500 * 1)
    /\ i <= 0
    /\ rp == (100 # 1) / 100 * 500 * 1.
Proof.
  apply repay_when_downpayment_covers.
  - reflexivity.
  - simpl. lia.
  - simpl. lra.
  - reflexivity.
  - vm_compute. discriminate.
Defined.

End RepayProperties.

(** ** loan.py: [payoff] *)

Section PayoffProperties.

Import Common Dateutil Mortgage Notions.
Local Open Scope Q_scope.

(** What one pass of the loop of [payoff] writes. *)
Lemma payoff_body_fields
    (m : mortgage) (rest : list mortgage) (self self' : Loan.loan)
    (start_ current : datetime) :
  Loan.payoff_body m rest self start_ = Ok (self', current) ->
  exists i rp c,
    repay m (Loan.outstanding self) start_ = Ok (i, rp, current)
    /\ Loan.cost self = Some c
    /\ self' = {| Loan.amount := Loan.amount self;
                  Loan.outstanding := Loan.outstanding self - (rp - i);
                  Loan.cost := Some (c + i);
                  Loan.start := Loan.start self;
                  Loan.mortgages := rest;
                  Loan.end_ := Some current |}.
Proof.
  unfold Loan.payoff_body. intro H.
  destruct (repay m (Loan.outstanding self) start_) as [[[i rp] d]|] eqn:R;
    [|discriminate].
  simpl in H. destruct (Loan.cost self) as [c|]; [|discriminate].
  simpl in H. inversion H; subst. exists i, rp, c. repeat split.
Qed.

Lemma payoff_loop_terminal (ms : list mortgage) :
  forall (self fin : Loan.loan) (start_ : datetime),
    Loan.payoff_loop ms self start_ = Ok fin ->
    Loan.mortgages self = ms ->
    Loan.amount fin = Loan.amount self
    /\ Loan.start fin = Loan.start self
    /\ (exists done, ms = done ++ Loan.mortgages fin)
    /\ (Loan.mortgages fin = [] \/ Loan.outstanding fin <= 0)
    /\ (ms <> [] -> exists d, Loan.end_ fin = Some d).
Proof.
  induction ms as [|m rest IH]; intros self fin start_ H Hms.
  - inversion H; subst. split; [reflexivity|]. split; [reflexivity|].
    split; [exists []; symmetry; exact Hms|].
    split; [left; exact Hms | intro E; contradiction].
  - simpl in H.
    destruct (Loan.payoff_body m rest self start_) as [[self' current]|] eqn:B;
      [|discriminate].
    simpl in H. apply payoff_body_fields in B.
    destruct B as (i & rp & c & _ & _ & Hself').
    destruct (Qgtb (Loan.outstanding self') 0) eqn:E; simpl in H.
    + pose proof (IH _ _ _ H ltac:(rewrite Hself'; reflexivity))
        as (Ha & Hs & (done & Hd) & Hend & Hdate).
      rewrite Hself' in Ha, Hs. simpl in Ha, Hs.
      split; [exact Ha|]. split; [exact Hs|].
      split; [exists (m :: done); simpl; rewrite <- Hd; reflexivity|].
      split; [exact Hend|]. intros _.
      destruct rest as [|m' rest'].
      * simpl in H. inversion H; subst fin. rewrite Hself'.
        exists current. reflexivity.
      * apply Hdate. discriminate.
    + inversion H; subst fin. apply Qgtb_false in E.
      rewrite Hself' in *. simpl in *.
      split; [reflexivity|]. split; [reflexivity|].
      split; [exists [m]; reflexivity|].
      split; [right; exact E|]. intros _. exists current. reflexivity.
Qed.

(** X12: when [payoff] returns, the principal and the start of the loan
    are what they were, the cost is a number, the mortgages left in the
    list are the last ones of the list it had, in order, and either none
    is left or the balance is not positive; when the list had a mortgage,
    the end date is set. *)
Theorem payoff_terminal (self fin : Loan.loan) :
  Loan.payoff self = Ok fin ->
  Loan.amount fin = Loan.amount self
  /\ Loan.start fin = Loan.start self
  /\ (exists c, Loan.cost fin = Some c)
  /\ (exists done, Loan.mortgages self = done ++ Loan.mortgages fin)
  /\ (Loan.mortgages fin = [] \/ Loan.outstanding fin <= 0)
  /\ (Loan.mortgages self <> [] -> exists d, Loan.end_ fin = Some d).
Proof.
  unfold Loan.payoff. intro H.
  assert (exists c, Loan.cost fin = Some c) as Hc.
  { destruct (payoff_loop_after _ _ _ _ H) as [[_ ->]|Hafter].
    - exists 0. reflexivity.
    - clear H. induction Hafter as
        [m rest l s l' cur Hb | m rest l s l' cur l'' Hb _ _ IH];
        [|exact IH].
      apply payoff_body_fields in Hb.
      destruct Hb as (i & rp & c & _ & _ & ->). eexists. reflexivity. }
  apply payoff_loop_terminal in H; [|reflexivity]. simpl in H.
  destruct H as (Ha & Hs & Hd & He & Hdate).
  repeat (split; [assumption|]). exact Hdate.
Qed.

Lemma payoff_terminal_witness :
  exists fin,
    Loan.payoff (Loan.init 500 Cases.new_year [Cases.plain]) = Ok fin
    /\ Loan.amount fin = 500
    /\ Loan.start fin = Cases.new_year
    /\ (exists c, Loan.cost fin = Some c)
    /\ (exists done, [Cases.plain] = done ++ Loan.mortgages fin)
    /\ (Loan.mortgages fin = [] \/ Loan.outstanding fin <= 0)
    /\ ([Cases.plain] <> [] -> exists d, Loan.end_ fin = Some d).
Proof.
  eexists. split; [vm_compute; reflexivity|].
  apply (payoff_terminal (Loan.init 500 Cases.new_year [Cases.plain])).
  vm_compute. reflexivity.
Defined.

(** X14: a first mortgage with a term that is not positive makes [payoff]
    raise: nothing is paid off. *)
Theorem payoff_raises_on_first_term (self : Loan.loan) (m : mortgage)
    (rest : list mortgage) :
  Loan.mortgages self = m :: rest ->
  (duration m <= 0)%Z ->
  exists e, Loan.payoff self = Raise e.
Proof.
  intros Hms Hd. unfold Loan.payoff. simpl Loan.mortgages. rewrite Hms.
  simpl Loan.payoff_loop. unfold Loan.payoff_body. simpl Loan.outstanding.
  destruct (repay_nonpositive_term_raises m (Loan.outstanding self)
              (Loan.start self) Hd) as [e He].
  simpl Loan.start. rewrite He. exists e. reflexivity.
Qed.

Lemma payoff_raises_on_first_term_witness :
  exists e,
    Loan.payoff
      (Loan.init 500 Cases.new_year [fresh (6 # 100) 0 700 0 (Num 0)])
    = Raise e.
Proof.
  apply (payoff_raises_on_first_term _ (fresh (6 # 100) 0 700 0 (Num 0)) []);
    [reflexivity | simpl; lia].
Defined.

(** X15: mortgages that follow the one that pays the loan off are never
    used.  If the loop of [payoff] on one mortgage ends with a balance that
    is not positive, then on that mortgage followed by any others, which
    may be ones [repay] would raise on, it ends in the same state, with
    the others left in the list. *)
Theorem payoff_ignores_the_rest (m : mortgage) (self fin : Loan.loan)
    (start_ : datetime) (rest : list mortgage) :
  Loan.payoff_loop [m] self start_ = Ok fin ->
  Loan.outstanding fin <= 0 ->
  Loan.payoff_loop (m :: rest) self start_ = Ok (with_mortgages fin rest).
Proof.
  simpl. intros H Hz.
  destruct (Loan.payoff_body m [] self start_) as [[self' cur]|] eqn:B;
    [|discriminate].
  simpl in H.
  assert (fin = self') as ->
    by (destruct (Qgtb (Loan.outstanding self') 0); simpl in H;
        inversion H; reflexivity).
  apply payoff_body_fields in B. destruct B as (i & rp & c & Hr & Hc & ->).
  unfold Loan.payoff_body. rewrite Hr. simpl. rewrite Hc. simpl.
  simpl in Hz. apply Qgtb_false in Hz. rewrite Hz. reflexivity.
Qed.

Lemma payoff_ignores_the_rest_witness :
  exists fin,
    Loan.payoff_loop [Cases.plain] Cases.small_loan Cases.new_year = Ok fin
    /\ Loan.payoff_loop
         [Cases.plain; fresh (6 # 100) 0 700 0 (Str "five")]
         Cases.small_loan Cases.new_year
       = Ok (with_mortgages fin [fresh (6 # 100) 0 700 0 (Str "five")]).
Proof.
  eexists. split; [vm_compute; reflexivity|].
  apply payoff_ignores_the_rest; [vm_compute; reflexivity|].
  vm_compute. discriminate.
Defined.

End PayoffProperties.

(** ** mortgage.py: payment dates and anniversaries *)

Section DateProperties.

Import Common Dateutil Mortgage Notions.
Local Open Scope Z_scope.

Lemma filter_all {A : Type} (f : A -> bool) (l : list A) :
  (forall x, In x l -> f x = true) -> filter f l = l.
Proof.
  induction l as [|a l IH]; intro H; [reflexivity|]. simpl.
  rewrite (H a (or_introl eq_refl)). f_equal. apply IH.
  intros x Hx. apply H. right. exact Hx.
Qed.

Lemma on_month_month (i dd : Z) : 1 <= month (on_month i dd) <= 12.
Proof.
  unfold on_month. simpl. pose proof (Z.mod_pos_bound i 12). lia.
Qed.

Lemma month_index_on_month (i dd : Z) : month_index (on_month i dd) = i.
Proof.
  unfold month_index, on_month. simpl.
  pose proof (Z.div_mod i 12). lia.
Qed.

(** A date of an earlier or the same month, on a day that is not later, is
    not later. *)
Lemma leb_of_index (a b : datetime) :
  1 <= month a <= 12 -> 1 <= month b <= 12 ->
  month_index a <= month_index b -> day a <= day b ->
  leb a b = true.
Proof.
  unfold month_index, leb. intros Ha Hb Hi Hd.
  destruct (Z.ltb_spec (year a) (year b)); [reflexivity|].
  destruct (Z.eqb_spec (year a) (year b)); [|lia]. simpl.
  destruct (Z.ltb_spec (month a) (month b)); [reflexivity|].
  destruct (Z.eqb_spec (month a) (month b)); [|lia]. simpl.
  apply Z.leb_le. exact Hd.
Qed.

(** The day of a date moved by a month or by years, from a day that every
    month has. *)
Lemma add_relativedelta_day (s : datetime) (years months : Z) :
  day s <= 28 -> day (add_relativedelta s years months) = day s.
Proof.
  intro H. unfold add_relativedelta.
  destruct (months =? 0); [simpl; pose proof (days_in_month_ge
                             (year s + years) (month s)); lia|].
  destruct (12 <? month s + months);
    [simpl; pose proof (days_in_month_ge (year s + years + 1)
                          (month s + months - 12)); lia|].
  destruct (month s + months <? 1); simpl.
  - pose proof (days_in_month_ge (year s + years - 1)
                  (month s + months + 12)). lia.
  - pose proof (days_in_month_ge (year s + years) (month s + months)). lia.
Qed.

(** From a start on a day that every month has, the payment dates are that
    day of each of the [12 * n] months that follow. *)
Lemma schedule_regular (s : datetime) (n : Z) :
  valid s = true -> day s <= 28 ->
  rrule_monthly (add_relativedelta s 0 1) (add_relativedelta s n 0)
  = map (fun k => on_month (year s * 12 + month s + Z.of_nat k) (day s))
      (seq 0 (Z.to_nat (12 * n))).
Proof.
  intros Hv Hd. unfold valid, valid_day in Hv.
  apply andb_prop in Hv. destruct Hv as [Hm Hday].
  apply andb_prop in Hm. destruct Hm as [Hm1 Hm2].
  apply andb_prop in Hday. destruct Hday as [Hd1 _].
  apply Z.leb_le in Hm1, Hm2, Hd1.
  unfold rrule_monthly. rewrite schedule_months, month_index_next.
  rewrite (add_relativedelta_day s 0 1 Hd).
  apply filter_all. intros x Hx. apply in_map_iff in Hx.
  destruct Hx as (k & <- & Hk). apply in_seq in Hk.
  apply andb_true_intro. split.
  - unfold valid_day. simpl day.
    pose proof (days_in_month_ge
                  (year (on_month (year s * 12 + month s + Z.of_nat k) (day s)))
                  (month (on_month (year s * 12 + month s + Z.of_nat k)
                            (day s)))).
    apply andb_true_intro. split; apply Z.leb_le; lia.
  - apply leb_of_index.
    + apply on_month_month.
    + simpl. lia.
    + rewrite month_index_on_month, month_index_years. lia.
    + rewrite (add_relativedelta_day s n 0 Hd). simpl. lia.
Qed.

(** X16: from a start in the calendar on a day that every month has (the
    28th at the latest), a mortgage has twelve payment dates for each year
    of its term, all on the day of the month of the start, and the last of
    them is the start moved by the term. *)
Theorem repayment_duration_regular (self : mortgage) (o : Q) (s : datetime) :
  valid s = true -> day s <= 28 -> 1 <= duration self ->
  exists dates,
    repayment_duration (bind_start self o s) = Ok dates
    /\ Z.of_nat (List.length dates) = 12 * duration self
    /\ Forall (fun d => day d = day s /\ valid d = true) dates
    /\ List.last dates s = add_relativedelta s (duration self) 0.
Proof.
  intros Hv Hd Hn.
  exists (map (fun k => on_month (year s * 12 + month s + Z.of_nat k) (day s))
            (seq 0 (Z.to_nat (12 * duration self)))).
  split.
  - change (repayment_duration (bind_start self o s))
      with (Ok (rrule_monthly (add_relativedelta s 0 1)
                  (add_relativedelta s (duration self) 0))).
    rewrite (schedule_regular s (duration self) Hv Hd). reflexivity.
  - assert (1 <= day s) as Hd1.
    { unfold valid, valid_day in Hv. apply andb_prop in Hv.
      destruct Hv as [_ Hv]. apply andb_prop in Hv. destruct Hv as [Hv _].
      apply Z.leb_le in Hv. exact Hv. }
    assert (1 <= month s <= 12) as Hm.
    { unfold valid in Hv. apply andb_prop in Hv. destruct Hv as [Hv _].
      apply andb_prop in Hv. destruct Hv as [H1 H2].
      apply Z.leb_le in H1, H2. lia. }
    split; [rewrite length_map, length_seq; lia|]. split.
    + apply Forall_forall. intros x Hx. apply in_map_iff in Hx.
      destruct Hx as (k & <- & _). split; [reflexivity|].
      unfold valid, valid_day.
      pose proof (on_month_month (year s * 12 + month s + Z.of_nat k) (day s)).
      pose proof (days_in_month_ge
                    (year (on_month (year s * 12 + month s + Z.of_nat k)
                             (day s)))
                    (month (on_month (year s * 12 + month s + Z.of_nat k)
                              (day s)))).
      simpl day.
      repeat (apply andb_true_intro; split); apply Z.leb_le; lia.
    + destruct (Z.to_nat (12 * duration self)) as [|k] eqn:Ek; [lia|].
      rewrite seq_S, map_app. simpl map. rewrite last_last.
      unfold on_month, add_relativedelta. simpl.
      replace (year s * 12 + month s + Z.of_nat k)
        with ((year s + duration self) * 12 + (month s - 1)) by lia.
      f_equal.
      * symmetry. apply (Z.div_unique _ 12 _ (month s - 1)); lia.
      * assert (((year s + duration self) * 12 + (month s - 1)) mod 12
                = month s - 1) as ->; [|lia].
        symmetry.
        apply (Z.mod_unique _ 12 (year s + duration self) (month s - 1));
          lia.
      * pose proof (days_in_month_ge (year s + duration self) (month s)).
        lia.
Qed.

Lemma repayment_duration_regular_witness :
  exists dates,
    repayment_duration (bind_start Cases.plain 500 Cases.new_year) = Ok dates
    /\ Z.of_nat (List.length dates) = 12 * duration Cases.plain
    /\ Forall (fun d => day d = day Cases.new_year /\ valid d = true) dates
    /\ List.last dates Cases.new_year
       = add_relativedelta Cases.new_year (duration Cases.plain) 0.
Proof.
  apply repayment_duration_regular; [reflexivity | simpl; lia | simpl; lia].
Defined.

Lemma firstn_seq_from (n : nat) :
  forall start m, (n <= m)%nat -> firstn n (seq start m) = seq start n.
Proof.
  induction n as [|n IH]; intros start m H; [reflexivity|].
  destruct m as [|m]; [lia|]. simpl. f_equal. apply IH. lia.
Qed.

Lemma firstn_seq_le (n m : nat) :
  (n <= m)%nat -> firstn n (seq 0 m) = seq 0 n.
Proof. apply firstn_seq_from. Qed.

(** From a day that every month has, the yearly recurrences are that day
    and month of the [count] years from the first on. *)
Lemma rrule_yearly_regular (dtstart : datetime) (count : Z) :
  1 <= day dtstart <= 28 ->
  rrule_yearly dtstart count
  = map (fun k => {| year := year dtstart + Z.of_nat k;
                     month := month dtstart;
                     day := day dtstart |})
      (seq 0 (Z.to_nat count)).
Proof.
  intro Hd. unfold rrule_yearly. rewrite filter_all.
  - rewrite firstn_map. rewrite firstn_seq_le by lia. reflexivity.
  - intros x Hx. apply in_map_iff in Hx. destruct Hx as (k & <- & _).
    unfold valid_day. simpl.
    pose proof (days_in_month_ge (year dtstart + Z.of_nat k) (month dtstart)).
    apply andb_true_intro. split; apply Z.leb_le; lia.
Qed.

Lemma valid_day_ge (s : datetime) : valid s = true -> 1 <= day s.
Proof.
  unfold valid, valid_day. intro Hv. apply andb_prop in Hv.
  destruct Hv as [_ Hv]. apply andb_prop in Hv. destruct Hv as [Hv _].
  apply Z.leb_le in Hv. exact Hv.
Qed.

(** From a start on a day that every month has, the start moved by [k]
    years is one of the anniversaries of [calculate_overpay] exactly for
    [k] from 1 to the term less one. *)
Lemma mem_anniversary (s : datetime) (k n : Z) :
  valid s = true -> day s <= 28 ->
  mem (add_relativedelta s k 0)
    (rrule_yearly (add_relativedelta s 1 0) (n - 1))
  = ((1 <=? k) && (k <=? n - 1))%bool.
Proof.
  intros Hv Hd. pose proof (valid_day_ge s Hv) as Hd1.
  rewrite rrule_yearly_regular
    by (rewrite (add_relativedelta_day s 1 0 Hd); lia).
  rewrite (add_relativedelta_day s 1 0 Hd).
  assert (add_relativedelta s k 0
          = {| year := year s + k; month := month s; day := day s |}) as ->.
  { pose proof (add_relativedelta_day s k 0 Hd) as E.
    unfold add_relativedelta in *. simpl in *. rewrite E. reflexivity. }
  assert (year (add_relativedelta s 1 0) = year s + 1) as -> by reflexivity.
  assert (month (add_relativedelta s 1 0) = month s) as -> by reflexivity.
  unfold mem.
  destruct ((1 <=? k) && (k <=? n - 1))%bool eqn:E.
  - apply andb_prop in E. destruct E as [E1 E2].
    apply Z.leb_le in E1, E2. apply existsb_exists.
    exists {| year := year s + 1 + Z.of_nat (Z.to_nat (k - 1));
              month := month s; day := day s |}.
    split.
    + apply in_map_iff. exists (Z.to_nat (k - 1)). split; [reflexivity|].
      apply in_seq. lia.
    + unfold eqb. simpl. rewrite !Z.eqb_refl.
      replace (year s + 1 + Z.of_nat (Z.to_nat (k - 1))) with (year s + k)
        by lia.
      rewrite Z.eqb_refl. reflexivity.
  - destruct (existsb _ _) eqn:X; [|reflexivity].
    apply existsb_exists in X. destruct X as (x & Hx & Heq).
    apply in_map_iff in Hx. destruct Hx as (j & <- & Hj).
    apply in_seq in Hj. unfold eqb in Heq. simpl in Heq.
    apply andb_prop in Heq. destruct Heq as [Heq _].
    apply andb_prop in Heq. destruct Heq as [Heq _].
    apply Z.eqb_eq in Heq.
    assert ((1 <=? k) && (k <=? n - 1) = true)%bool as Habs.
    { apply andb_true_intro. split; apply Z.leb_le; lia. }
    rewrite Habs in E. discriminate.
Qed.

(** X17: from a start in the calendar on a day that every month has,
    [calculate_overpay] on the start moved by [k] years gives the lump,
    the balance times the overpay and at most the balance, for [k] from 1
    to the term less one, and nothing for any other [k]: not at the start
    and not at the end of the term. *)
Theorem calculate_overpay_on_anniversaries (self : mortgage)
    (s : datetime) (k : Z) (o : Q) :
  valid s = true -> day s <= 28 -> start self = Some s ->
  calculate_overpay self (add_relativedelta s k 0) o
  = Ok (if ((1 <=? k) && (k <=? duration self - 1))%bool
        then (if Qgtb o (o * overpay self)%Q then (o * overpay self)%Q else o)
        else 0%Q).
Proof.
  intros Hv Hd Hs. unfold calculate_overpay. rewrite Hs.
  rewrite (mem_anniversary s k (duration self) Hv Hd).
  destruct ((1 <=? k) && (k <=? duration self - 1))%bool; reflexivity.
Qed.

Lemma calculate_overpay_on_anniversaries_witness :
  calculate_overpay
    (bind_start (fresh (6 # 100) 3 700 (1 # 10) (Num 0)) 100000
       Cases.new_year)
    (mkdate 2022 1 1) 1000
  = Ok (1000 * (1 # 10))%Q
  /\ calculate_overpay
       (bind_start (fresh (6 # 100) 3 700 (1 # 10) (Num 0)) 100000
          Cases.new_year)
       (mkdate 2023 1 1) 1000
     = Ok 0%Q.
Proof.
  split.
  - apply (calculate_overpay_on_anniversaries
             (bind_start (fresh (6 # 100) 3 700 (1 # 10) (Num 0)) 100000
                Cases.new_year) Cases.new_year 2 1000);
      [reflexivity | simpl; lia | reflexivity].
  - apply (calculate_overpay_on_anniversaries
             (bind_start (fresh (6 # 100) 3 700 (1 # 10) (Num 0)) 100000
                Cases.new_year) Cases.new_year 3 1000);
      [reflexivity | simpl; lia | reflexivity].
Defined.

Lemma rrule_monthly_day (a b d : datetime) :
  In d (rrule_monthly a b) -> day d = day a.
Proof.
  unfold rrule_monthly. intro H. apply filter_In in H.
  destruct H as [H _]. apply in_map_iff in H.
  destruct H as (k & <- & _). reflexivity.
Qed.

Lemma in_firstn {A : Type} (n : nat) (l : list A) (x : A) :
  In x (firstn n l) -> In x l.
Proof.
  intro H. rewrite <- (firstn_skipn n l). apply in_or_app. left. exact H.
Qed.

Lemma rrule_yearly_day (a d : datetime) (count : Z) :
  In d (rrule_yearly a count) -> day d = day a.
Proof.
  unfold rrule_yearly. intro H. apply in_firstn in H.
  apply filter_In in H. destruct H as [H _]. apply in_map_iff in H.
  destruct H as (k & <- & _). reflexivity.
Qed.

(** When the month after the start lacks the day of the start, the first
    anniversary still has it. *)
Lemma clamped_anniversary_day (s : datetime) :
  valid s = true -> clamped s = true ->
  day (add_relativedelta s 1 0) = day s
  /\ day (add_relativedelta s 0 1) <> day s.
Proof.
  unfold valid, valid_day, clamped. intros Hv Hc.
  apply andb_prop in Hv. destruct Hv as [Hm Hd].
  apply andb_prop in Hm. destruct Hm as [Hm1 Hm2].
  apply andb_prop in Hd. destruct Hd as [Hd1 Hd2].
  apply Z.leb_le in Hm1, Hm2, Hd1, Hd2.
  apply negb_true_iff in Hc. apply Z.eqb_neq in Hc.
  split; [|exact Hc].
  unfold add_relativedelta in *. simpl (0 =? 0). simpl (1 =? 0) in Hc.
  cbv iota in *. simpl.
  assert (days_in_month (year s + 1) (month s) >= day s); [|lia].
  unfold days_in_month in *.
  destruct (Z.eqb_spec (month s) 2) as [E|E].
  - exfalso. rewrite E in Hc. simpl in Hc.
    destruct (is_leap (year s)); lia.
  - lia.
Qed.

Lemma calculate_repayment_off_anniversary (self : mortgage)
    (s d : datetime) (o paid : Q) :
  start self = Some s ->
  mem d (rrule_yearly (add_relativedelta s 1 0) (duration self - 1)) = false ->
  calculate_repayment self d o = Ok paid ->
  (paid == nominal self o)%Q.
Proof.
  intros Hs Hmem. unfold calculate_repayment, calculate_overpay.
  rewrite Hs, Hmem.
  destruct (truthy (overpay self)); simpl; intro H; inversion H; ring.
Qed.

(** X18: from a start in the calendar whose day the month after lacks (the
    31st of any month, the 29th to 31st of January), the payment dates
    never meet an anniversary, and no repayment of [repay] holds a lump:
    each is the nominal one, whatever the overpay. *)
Theorem repay_from_clamped_start_never_overpays (self : mortgage) (o : Q)
    (s : datetime) (r : run) :
  repay_run self o s = Ok r ->
  valid s = true -> clamped s = true ->
  Forall (fun p => forall paid,
            p_repayment p = Some paid ->
            (paid == nominal self (p_accrued p))%Q)
    (r_periods r).
Proof.
  intros H Hv Hc. apply repay_run_inv in H.
  destruct H as (_ & _ & dates & Hdates & L).
  pose proof (repay_loop_periods _ _ _ _ _ L) as Hok.
  pose proof (repay_loop_dates _ _ _ _ _ L) as [[rest Hpre] _].
  change (repayment_duration (bind_start self o s))
    with (Ok (rrule_monthly (add_relativedelta s 0 1)
                (add_relativedelta s (duration self) 0))) in Hdates.
  inversion Hdates as [Hd]. clear Hdates.
  destruct (clamped_anniversary_day s Hv Hc) as [Hy Hm].
  rewrite Forall_forall in *. intros p Hp paid Hpaid.
  specialize (Hok p Hp). destruct Hok as (_ & _ & Hstep).
  rewrite Hpaid in Hstep. destruct Hstep as (_ & Hcalc & _).
  assert (In (p_date p) dates) as Hin.
  { rewrite Hpre. apply in_or_app. left. apply in_map. exact Hp. }
  rewrite <- Hd in Hin. apply rrule_monthly_day in Hin.
  apply (calculate_repayment_off_anniversary (bind_start self o s) s
           (p_date p) (p_accrued p) paid eq_refl); [|exact Hcalc].
  unfold mem. destruct (existsb _ _) eqn:X; [|reflexivity].
  apply existsb_exists in X. destruct X as (x & Hx & Heq).
  apply rrule_yearly_day in Hx. unfold eqb in Heq.
  apply andb_prop in Heq. destruct Heq as [_ Heq].
  apply Z.eqb_eq in Heq. lia.
Qed.

Lemma repay_from_clamped_start_never_overpays_witness :
  exists r,
    repay_run (fresh (6 # 100) 2 700 (1 # 10) (Num 0)) 500
      (mkdate 2020 1 31) = Ok r
    /\ Forall (fun p => forall paid,
                 p_repayment p = Some paid ->
                 (paid
                  == nominal (fresh (6 # 100) 2 700 (1 # 10) (Num 0))
                       (p_accrued p))%Q)
         (r_periods r).
Proof.
  eexists. split; [vm_compute; reflexivity|].
  apply (repay_from_clamped_start_never_overpays _ 500%Q (mkdate 2020 1 31));
    [vm_compute; reflexivity | reflexivity | reflexivity].
Defined.

End DateProperties.

(** ** loan.py: [load_mortgages] *)

Section LoadProperties.

Import Common Load.
Local Open Scope string_scope.

Lemma load_entry_made (fields : dict value) (a : arguments) :
  load_entry fields = Loaded a -> made_from fields a.
Proof.
  unfold load_entry, made_from, item, optional.
  destruct (lookup "rate" fields) as [raw|]; [|discriminate].
  destruct (sanitize_percent raw) as [rate|] eqn:Er; [|discriminate].
  destruct (lookup "years" fields) as [years|]; [|discriminate].
  destruct (lookup "repayment" fields) as [repayment|]; [|discriminate].
  destruct (lookup "overpay" fields) as [rawo|].
  - destruct (sanitize_percent rawo) as [overpay|] eqn:Eo; [|discriminate].
    intro H. inversion H; subst. simpl.
    split; [exists raw; split; [reflexivity | exact Er]|].
    repeat split.
  - intro H. inversion H; subst. simpl.
    split; [exists raw; split; [reflexivity | exact Er]|].
    repeat split.
Qed.

(** X19: when [load_mortgages] returns, it returns one mortgage for each
    entry of the file, in the order of the file; each holds the years, the
    repayment and the downpayment as the file gives them, unchecked and
    unconverted, 0 for a downpayment or an overpay that is not given, and
    for the rate and a given overpay what [sanitize_percent] returned. *)
Theorem load_mortgages_one_per_entry (mortgages : dict (dict value))
    (lm : list arguments) :
  load_mortgages mortgages = Loaded lm ->
  Forall2 (fun entry a => made_from (snd entry) a) mortgages lm.
Proof.
  revert lm. induction mortgages as [|[name fields] rest IH]; intros lm H.
  - inversion H. constructor.
  - simpl in H. destruct (load_entry fields) as [a|] eqn:E; [|discriminate].
    destruct (load_mortgages rest) as [lm'|]; [|discriminate].
    inversion H; subst. constructor.
    + apply load_entry_made. exact E.
    + apply IH. reflexivity.
Qed.

Lemma load_mortgages_one_per_entry_witness :
  Forall2 (fun entry a => made_from (snd entry) a)
    [("first", [("rate", Str "6%"); ("years", Num 25);
                ("repayment", Num 700)])]
    [{| a_rate := Num ((6 # 1) / 100); a_duration := Num 25;
        a_repayment := Num 700; a_overpay := Num 0;
        a_downpayment := Num 0 |}].
Proof. apply load_mortgages_one_per_entry. reflexivity. Defined.

Lemma sanitize_percent_number_inv (raw : value) (q : Q) :
  sanitize_percent raw = Ok (Num q) -> from_percent raw q.
Proof.
  unfold sanitize_percent, from_percent. destruct raw as [x|s]; [discriminate|].
  destruct (PyStr.last (PyStr.strip s)) as [c|] eqn:El; [|discriminate].
  simpl. destruct (Ascii.eqb_spec c "%") as [->|Hc]; [|discriminate].
  destruct (PyStr.float (PyStr.drop_last (PyStr.strip s))) as [f|] eqn:Ef;
    [|discriminate].
  simpl. intro H. inversion H. exists s, f.
  split; [reflexivity|]. split; [exact El|]. split; [exact Ef|reflexivity].
Qed.

(** X20: the only numbers that [load_mortgages] passes on as a rate or an
    overpay are the default overpay 0 and numbers that [sanitize_percent]
    made of a string ending in a percent sign, the number before the sign
    over 100.  A rate or overpay written as a number in the file never gets
    through. *)
Theorem loaded_rates_come_from_percent_strings
    (mortgages : dict (dict value)) (lm : list arguments) :
  load_mortgages mortgages = Loaded lm ->
  Forall2 (fun entry a =>
             numeric "rate" (snd entry) = false
             /\ numeric "overpay" (snd entry) = false
             /\ (forall q, a_rate a = Num q ->
                 exists raw,
                   lookup "rate" (snd entry) = Some raw /\ from_percent raw q)
             /\ (forall q, a_overpay a = Num q ->
                 match lookup "overpay" (snd entry) with
                 | Some raw => from_percent raw q
                 | None => q = 0%Q
                 end))
    mortgages lm.
Proof.
  intro H. apply load_mortgages_one_per_entry in H.
  induction H as [|[name fields] a rest lm' Hm _ IH]; constructor;
    [|exact IH].
  cbn [snd] in *. destruct Hm as ((raw & Hraw & Hrate) & _ & _ & _ & Hover).
  unfold numeric. rewrite Hraw.
  split; [destruct raw; [discriminate | reflexivity]|].
  split.
  - destruct (lookup "overpay" fields) as [[x|s]|];
      [discriminate | reflexivity | reflexivity].
  - split.
    + intros q Hq. exists raw. split; [reflexivity|].
      apply sanitize_percent_number_inv. rewrite Hrate, Hq. reflexivity.
    + intros q Hq. destruct (lookup "overpay" fields) as [rawo|].
      * apply sanitize_percent_number_inv. rewrite Hover, Hq. reflexivity.
      * rewrite Hover in Hq. inversion Hq. reflexivity.
Qed.

Lemma loaded_rates_come_from_percent_strings_witness :
  Forall2 (fun entry a =>
             numeric "rate" (snd entry) = false
             /\ numeric "overpay" (snd entry) = false
             /\ (forall q, a_rate a = Num q ->
                 exists raw,
                   lookup "rate" (snd entry) = Some raw /\ from_percent raw q)
             /\ (forall q, a_overpay a = Num q ->
                 match lookup "overpay" (snd entry) with
                 | Some raw => from_percent raw q
                 | None => q = 0%Q
                 end))
    [("first", [("rate", Str "6%"); ("years", Num 25);
                ("repayment", Num 700)])]
    [{| a_rate := Num ((6 # 1) / 100); a_duration := Num 25;
        a_repayment := Num 700; a_overpay := Num 0;
        a_downpayment := Num 0 |}].
Proof. apply loaded_rates_come_from_percent_strings. reflexivity. Defined.

(** X21: a [KeyError] of [load_mortgages] names [rate], [years] or
    [repayment], and some entry of the file lacks the field named; a
    missing [downpayment] or [overpay] never raises. *)
Theorem load_mortgages_key_error (mortgages : dict (dict value))
    (key : string) :
  load_mortgages mortgages = Failed (KeyError key) ->
  (key = "rate" \/ key = "years" \/ key = "repayment")
  /\ exists name fields,
       In (name, fields) mortgages /\ lookup key fields = None.
Proof.
  induction mortgages as [|[name fields] rest IH]; intro H; [discriminate|].
  simpl in H. destruct (load_entry fields) as [a|e] eqn:E.
  - destruct (load_mortgages rest) as [lm|e']; [discriminate|].
    inversion H; subst e'. destruct (IH eq_refl) as (Hk & n & f & Hin & Hl).
    split; [exact Hk|]. exists n, f. split; [right; exact Hin | exact Hl].
  - inversion H; subst e. clear H IH.
    assert ((key = "rate" \/ key = "years" \/ key = "repayment")
            /\ lookup key fields = None) as [Hk Hl].
    { unfold load_entry, item in E.
      destruct (lookup "rate" fields) as [raw|] eqn:L1;
        [|inversion E; split; [left; reflexivity | exact L1]].
      destruct (sanitize_percent raw); [|discriminate].
      destruct (lookup "years" fields) as [years|] eqn:L2;
        [|inversion E; split; [right; left; reflexivity | exact L2]].
      destruct (lookup "repayment" fields) as [repayment|] eqn:L3;
        [|inversion E; split; [right; right; reflexivity | exact L3]].
      destruct (lookup "overpay" fields) as [rawo|]; [|discriminate].
      destruct (sanitize_percent rawo); discriminate. }
    split; [exact Hk|]. exists name, fields.
    split; [left; reflexivity | exact Hl].
Qed.

Lemma load_mortgages_key_error_witness :
  ("years" = "rate" \/ "years" = "years" \/ "years" = "repayment")
  /\ exists name fields,
       In (name, fields)
         [("first", [("rate", Str "6%"); ("repayment", Num 700)])]
       /\ lookup "years" fields = None.
Proof. apply load_mortgages_key_error. reflexivity. Defined.

End LoadProperties.

(** ** White space around a percentage, and the dates of a term *)

Section MoreProperties.

Import Common Dateutil Mortgage Notions.
Local Open Scope string_scope.

Lemma string_app_assoc (a b c : string) : (a ++ b) ++ c = a ++ (b ++ c).
Proof. induction a as [|x a IH]; [reflexivity|]. simpl. rewrite IH. reflexivity. Qed.

Lemma string_app_nil (a : string) : a ++ "" = a.
Proof. induction a as [|x a IH]; [reflexivity|]. simpl. rewrite IH. reflexivity. Qed.

Lemma rev_append_app (s : string) :
  forall acc, PyStr.rev_append s acc = PyStr.rev s ++ acc.
Proof.
  unfold PyStr.rev. induction s as [|c s IH]; intro acc; [reflexivity|].
  simpl. rewrite (IH (String c acc)), (IH (String c "")).
  rewrite string_app_assoc. reflexivity.
Qed.

Lemma rev_append_of_app (s t : string) :
  forall acc,
    PyStr.rev_append (s ++ t) acc = PyStr.rev_append t (PyStr.rev_append s acc).
Proof.
  induction s as [|c s IH]; intro acc; [reflexivity|]. simpl. apply IH.
Qed.

Lemma rev_append_rev_append (s : string) :
  forall a b,
    PyStr.rev_append (PyStr.rev_append s a) b = PyStr.rev_append a (s ++ b).
Proof.
  induction s as [|c s IH]; intros a b; [reflexivity|]. simpl.
  rewrite IH. reflexivity.
Qed.

Lemma rev_involutive (s : string) : PyStr.rev (PyStr.rev s) = s.
Proof.
  unfold PyStr.rev. rewrite rev_append_rev_append. simpl.
  apply string_app_nil.
Qed.

(** What [lstrip] leaves is empty or starts with a character that is not
    white space. *)
Lemma lstrip_cases (s : string) :
  PyStr.lstrip s = ""
  \/ exists c r, PyStr.lstrip s = String c r /\ PyStr.is_space c = false.
Proof.
  induction s as [|c s IH]; [left; reflexivity|]. simpl.
  destruct (PyStr.is_space c) eqn:E; [exact IH|].
  right. exists c, s. split; [reflexivity | exact E].
Qed.

Lemma lstrip_before_nonspace (x : string) (c : ascii) :
  PyStr.is_space c = false ->
  exists y,
    PyStr.lstrip (x ++ String c "") = y ++ String c ""
    /\ PyStr.lstrip (y ++ String c "") = y ++ String c "".
Proof.
  intro Hc. induction x as [|d x IH].
  - exists "". simpl. rewrite Hc. split; reflexivity.
  - simpl. destruct (PyStr.is_space d) eqn:E; [exact IH|].
    exists (String d x). simpl. rewrite E. split; reflexivity.
Qed.

Lemma rev_snoc (y : string) (c : ascii) :
  PyStr.rev (y ++ String c "") = String c (PyStr.rev y).
Proof. unfold PyStr.rev. rewrite rev_append_of_app. reflexivity. Qed.

Lemma rev_cons (c : ascii) (r : string) :
  PyStr.rev (String c r) = PyStr.rev r ++ String c "".
Proof.
  change (PyStr.rev (String c r)) with (PyStr.rev_append r (String c "")).
  apply rev_append_app.
Qed.

(** A stripped string is empty, or it starts with a character that is not
    white space and, read backwards, stays as it is under [lstrip]. *)
Lemma strip_form (s : string) :
  PyStr.strip s = ""
  \/ exists c y,
       PyStr.strip s = String c (PyStr.rev y)
       /\ PyStr.is_space c = false
       /\ PyStr.lstrip (y ++ String c "") = y ++ String c "".
Proof.
  unfold PyStr.strip.
  destruct (lstrip_cases s) as [E|(c & r & E & Hc)]; rewrite E.
  - left. reflexivity.
  - right. rewrite rev_cons.
    destruct (lstrip_before_nonspace (PyStr.rev r) c Hc) as (y & Hy & Hfix).
    rewrite Hy, rev_snoc. exists c, y.
    split; [reflexivity|]. split; assumption.
Qed.

(** Stripping a stripped string changes nothing. *)
Lemma strip_idempotent (s : string) :
  PyStr.strip (PyStr.strip s) = PyStr.strip s.
Proof.
  destruct (strip_form s) as [E|(c & y & E & Hc & Hfix)]; rewrite E.
  - reflexivity.
  - unfold PyStr.strip.
    assert (PyStr.lstrip (String c (PyStr.rev y)) = String c (PyStr.rev y))
      as -> by (simpl; rewrite Hc; reflexivity).
    rewrite rev_cons, rev_involutive, Hfix, rev_snoc. reflexivity.
Qed.

(** X22: white space before and after the text does not matter to
    [sanitize_percent]: it returns for a string what it returns for the
    string stripped, and a string it returns is one it would return
    again. *)
Theorem sanitize_percent_ignores_white_space (s : string) :
  sanitize_percent (Str (PyStr.strip s)) = sanitize_percent (Str s)
  /\ (forall t,
        sanitize_percent (Str s) = Ok (Str t) ->
        sanitize_percent (Str t) = Ok (Str t)).
Proof.
  assert (sanitize_percent (Str (PyStr.strip s)) = sanitize_percent (Str s))
    as Hs by (unfold sanitize_percent; rewrite strip_idempotent; reflexivity).
  split; [exact Hs|]. intros t Ht.
  assert (t = PyStr.strip s) as ->.
  { unfold sanitize_percent in Ht.
    destruct (PyStr.last (PyStr.strip s)); [|discriminate]. simpl in Ht.
    destruct (Ascii.eqb a "%").
    - destruct (PyStr.float _); discriminate.
    - inversion Ht. reflexivity. }
  rewrite Hs. exact Ht.
Qed.

Lemma sanitize_percent_ignores_white_space_witness :
  sanitize_percent (Str "0.1") = Ok (Str "0.1").
Proof.
  destruct (sanitize_percent_ignores_white_space " 0.1 ") as [_ H].
  apply H. reflexivity.
Defined.

Lemma filter_length {A : Type} (f : A -> bool) (l : list A) :
  (List.length (filter f l) <= List.length l)%nat.
Proof.
  induction l as [|a l IH]; [apply le_n|]. simpl.
  destruct (f a); simpl; lia.
Qed.

(** X23: whatever the start, every payment date of a mortgage is a date of
    the calendar in a month after the month of the start, on the day of
    the month of the start moved by a month, and not after the start moved
    by the term; there are at most twelve for each year of the term. *)
Theorem repayment_duration_within_term (self : mortgage) (o : Q)
    (s : datetime) (dates : list datetime) :
  repayment_duration (bind_start self o s) = Ok dates ->
  Forall (fun d =>
            valid d = true
            /\ (month_index s < month_index d)%Z
            /\ day d = day (add_relativedelta s 0 1)
            /\ leb d (add_relativedelta s (duration self) 0) = true)
    dates
  /\ (Z.of_nat (List.length dates) <= 12 * Z.max 0 (duration self))%Z.
Proof.
  change (repayment_duration (bind_start self o s))
    with (Ok (rrule_monthly (add_relativedelta s 0 1)
                (add_relativedelta s (duration self) 0))).
  intro H. inversion H as [Hd]. clear H. unfold rrule_monthly.
  rewrite schedule_months, month_index_next. split.
  - apply Forall_forall. intros d Hin. apply filter_In in Hin.
    destruct Hin as [Hin Hf]. apply andb_prop in Hf. destruct Hf as [Hv Hle].
    apply in_map_iff in Hin. destruct Hin as (k & <- & _).
    split.
    + unfold valid. rewrite Hv.
      pose proof (on_month_month (year s * 12 + month s + Z.of_nat k)
                    (day (add_relativedelta s 0 1))) as [H1 H2].
      apply Z.leb_le in H1, H2. rewrite H1, H2. reflexivity.
    + split; [rewrite month_index_on_month; unfold month_index; lia|].
      split; [reflexivity | exact Hle].
  - eapply Z.le_trans; [apply inj_le; apply filter_length|].
    rewrite length_map, length_seq. lia.
Qed.

Lemma repayment_duration_within_term_witness :
  exists dates,
    repayment_duration
      (bind_start Cases.plain 500 (mkdate 2020 12 31)) = Ok dates
    /\ Forall (fun d =>
                 valid d = true
                 /\ (month_index (mkdate 2020 12 31) < month_index d)%Z
                 /\ day d = day (add_relativedelta (mkdate 2020 12 31) 0 1)
                 /\ leb d (add_relativedelta (mkdate 2020 12 31)
                             (duration Cases.plain) 0) = true)
         dates
    /\ (Z.of_nat (List.length dates)
        <= 12 * Z.max 0 (duration Cases.plain))%Z.
Proof.
  eexists. split; [vm_compute; reflexivity|].
  apply (repayment_duration_within_term Cases.plain 500 (mkdate 2020 12 31)).
  vm_compute. reflexivity.
Defined.

End MoreProperties.
